(** * EventManagement.jsx: the event form, the lookup box and the event table

    A shallow embedding of the handlers of
    [src/eventfrontend/src/components/EventManagement.jsx] and the properties
    of its state reconciliation: which handler writes which piece of
    component state, which requests it issues, and in what order.

    - JavaScript strings are sequences of UTF-16 code units.
    - JSON values are an inductive type; an object is the list of its own
      properties in enumeration order, because [validateForm] walks the draft
      with [for (let key in event)] and [handleEdit] makes a table row, as the
      backend sent it, the draft.
    - A handler is a program in a small monad that records, in program order,
      the requests it issues and the state setters it calls.  It reads the
      state cells of the render it closes over; the state after the handler
      is the state before it with its writes applied in order.
    - The backend is a function from requests to answers, given anew for each
      operation.  An operation runs to completion, the continuation of its
      un-awaited list fetch included, before the next one starts.
    - Of the rendering only the banner's class is modelled; console output is
      left out.
*)

From Stdlib Require Import List String Ascii NArith ZArith Bool Lia DecimalPos.
Import ListNotations.

Set Implicit Arguments.
Set Warnings "-register-all".

(* ===================================================================== *)
(** ** JavaScript strings *)
(* ===================================================================== *)

Definition jsstring := list N.

(** An ASCII literal of the source, as code units. *)
Definition lit (s : string) : jsstring :=
  map N_of_ascii (list_ascii_of_string s).

Fixpoint str_eqb (a b : jsstring) : bool :=
  match a, b with
  | [], [] => true
  | x :: a', y :: b' => N.eqb x y && str_eqb a' b'
  | _, _ => false
  end.

(** WhiteSpace and LineTerminator of ECMAScript, what [String.prototype.trim]
    strips: TAB, LF, VT, FF, CR, SP, NBSP, the other Zs code points, LS, PS
    and the byte order mark. *)
Definition is_ws (c : N) : bool :=
  match c with
  | 9 | 10 | 11 | 12 | 13 | 32 | 160 | 5760
  | 8232 | 8233 | 8239 | 8287 | 12288 | 65279 => true
  | _ => (8192 <=? c) && (c <=? 8202)
  end%N.

Fixpoint trimStart (s : jsstring) : jsstring :=
  match s with
  | c :: s' => if is_ws c then trimStart s' else s
  | [] => []
  end.

Definition trimEnd (s : jsstring) : jsstring := rev (trimStart (rev s)).

Definition trim (s : jsstring) : jsstring := trimEnd (trimStart s).

(** [toLowerCase] on the code units below 128.  The Unicode case mapping of
    the other code units neither yields nor consumes a letter of "error",
    the only text a lowered string is searched for. *)
Definition lower (c : N) : N :=
  if ((65 <=? c) && (c <=? 90))%N then (c + 32)%N else c.

Definition toLowerCase (s : jsstring) : jsstring := map lower s.

Fixpoint startsWith (p s : jsstring) : bool :=
  match p, s with
  | [], _ => true
  | x :: p', y :: s' => N.eqb x y && startsWith p' s'
  | _ :: _, [] => false
  end.

(** [s.includes(p)] *)
Fixpoint includes (s p : jsstring) : bool :=
  startsWith p s ||
  match s with
  | [] => false
  | _ :: s' => includes s' p
  end.

Fixpoint digits (u : Decimal.uint) : jsstring :=
  match u with
  | Decimal.Nil => []
  | Decimal.D0 u' => 48%N :: digits u'
  | Decimal.D1 u' => 49%N :: digits u'
  | Decimal.D2 u' => 50%N :: digits u'
  | Decimal.D3 u' => 51%N :: digits u'
  | Decimal.D4 u' => 52%N :: digits u'
  | Decimal.D5 u' => 53%N :: digits u'
  | Decimal.D6 u' => 54%N :: digits u'
  | Decimal.D7 u' => 55%N :: digits u'
  | Decimal.D8 u' => 56%N :: digits u'
  | Decimal.D9 u' => 57%N :: digits u'
  end.

(** Number::toString of an integral number (below 10^21 in size, where
    JavaScript prints plain decimal digits). *)
Definition number_to_string (z : Z) : jsstring :=
  if (z <? 0)%Z then 45%N :: digits (N.to_uint (Z.abs_N z))
  else digits (N.to_uint (Z.abs_N z)).

(* ===================================================================== *)
(** ** JSON values *)
(* ===================================================================== *)

(** What a response body or a table row can be.  [VNum] holds the integral
    numbers; [VObj] lists the own properties of a plain object in the order
    [for ... in] and the spread enumerate them. *)
Inductive value : Type :=
| VUndefined
| VNull
| VBool (b : bool)
| VNum (z : Z)
| VStr (s : jsstring)
| VArr (xs : list value)
| VObj (ps : list (jsstring * value)).

Definition obj := list (jsstring * value).

(** ToBoolean, the test behind [!v], [v && ...] and [if (v)]. *)
Definition truthy (v : value) : bool :=
  match v with
  | VUndefined | VNull => false
  | VBool b => b
  | VNum z => negb (z =? 0)%Z
  | VStr s => negb (str_eqb s [])
  | VArr _ | VObj _ => true
  end.

(** ToString, as a template literal applies it, and what [v.toString()]
    returns on a value that has the method; an array joins its elements with
    commas, printing [null] and [undefined] elements as nothing. *)
Fixpoint to_string (v : value) : jsstring :=
  match v with
  | VUndefined => lit "undefined"
  | VNull => lit "null"
  | VBool true => lit "true"
  | VBool false => lit "false"
  | VNum z => number_to_string z
  | VStr s => s
  | VArr xs =>
      (fix join (l : list value) : jsstring :=
         match l with
         | [] => []
         | x :: rest =>
             let here := match x with
                         | VUndefined | VNull => []
                         | _ => to_string x
                         end in
             match rest with
             | [] => here
             | _ :: _ => here ++ 44%N :: join rest
             end
         end) xs
  | VObj _ => lit "[object Object]"
  end.

Definition isArray (v : value) : bool :=
  match v with
  | VArr _ => true
  | _ => false
  end.

(** [o[k]] on a plain object: the property's value, [undefined] when the
    object has no such property. *)
Fixpoint get (o : obj) (k : jsstring) : value :=
  match o with
  | [] => VUndefined
  | (k', v) :: o' => if str_eqb k' k then v else get o' k
  end.

(** [v.k] for the two keys the component reads off a value, "data" and "id":
    only an object can have them. *)
Definition prop (v : value) (k : jsstring) : value :=
  match v with
  | VObj ps => get ps k
  | _ => VUndefined
  end.

(** The keys [for (let key in o)] visits, in order. *)
Definition keys (o : obj) : list jsstring := map fst o.

(** [{...o, [k]: v}] for a key that is not an array index: an existing
    property keeps its place and takes the new value, a new one goes last. *)
Fixpoint set_prop (o : obj) (k : jsstring) (v : value) : obj :=
  match o with
  | [] => [(k, v)]
  | (k', v') :: o' =>
      if str_eqb k' k then (k', v) :: o' else (k', v') :: set_prop o' k v
  end.

(* ===================================================================== *)
(** ** Component state, requests and effects *)
(* ===================================================================== *)

(** The six [useState] cells. *)
Record state : Type := mkState {
  events : value;
  event : obj;
  idToFetch : jsstring;
  fetchedEvent : value;
  message : jsstring;
  editMode : bool
}.

Definition emptyEvent : obj :=
  [ (lit "id", VStr []); (lit "name", VStr []); (lit "date", VStr []);
    (lit "location", VStr []); (lit "organizer", VStr []) ].

(** The state of the first render. *)
Definition initial : state :=
  mkState (VArr []) emptyEvent [] VNull [] false.

Inductive http_method : Type := GET | POST | PUT | DELETE.

Record request : Type := mkRequest {
  method : http_method;
  url : jsstring;
  body : option value
}.

(** An axios promise: resolved with the response's [data], or rejected
    (network error, status outside 2xx). *)
Inductive response : Type :=
| Resolved (data : value)
| Rejected.

(** What a handler does to the world: a request it sends, or a call of one of
    the six setters. *)
Inductive effect : Type :=
| Request (r : request)
| SetEvents (v : value)
| SetEvent (o : obj)
| SetIdToFetch (i : jsstring)
| SetFetchedEvent (v : value)
| SetMessage (m : jsstring)
| SetEditMode (b : bool).

(** One cell replaced, the other five kept. *)
Definition with_events (st : state) (v : value) : state :=
  mkState v (event st) (idToFetch st) (fetchedEvent st) (message st) (editMode st).
Definition with_event (st : state) (o : obj) : state :=
  mkState (events st) o (idToFetch st) (fetchedEvent st) (message st) (editMode st).
Definition with_idToFetch (st : state) (i : jsstring) : state :=
  mkState (events st) (event st) i (fetchedEvent st) (message st) (editMode st).
Definition with_fetchedEvent (st : state) (v : value) : state :=
  mkState (events st) (event st) (idToFetch st) v (message st) (editMode st).
Definition with_message (st : state) (m : jsstring) : state :=
  mkState (events st) (event st) (idToFetch st) (fetchedEvent st) m (editMode st).
Definition with_editMode (st : state) (b : bool) : state :=
  mkState (events st) (event st) (idToFetch st) (fetchedEvent st) (message st) b.

Definition apply (st : state) (e : effect) : state :=
  match e with
  | Request _ => st
  | SetEvents v => with_events st v
  | SetEvent o => with_event st o
  | SetIdToFetch i => with_idToFetch st i
  | SetFetchedEvent v => with_fetchedEvent st v
  | SetMessage m => with_message st m
  | SetEditMode b => with_editMode st b
  end.

Definition is_request (e : effect) : bool :=
  match e with
  | Request _ => true
  | _ => false
  end.

(* ===================================================================== *)
(** ** The handler monad *)
(* ===================================================================== *)

(** A program yields a result and two runs of effects: [now], what the
    running task itself does, in program order, and [later], what the
    continuations of calls it made without [await] do once it has finished. *)
Record M (A : Type) : Type := mkM {
  result : A;
  now : list effect;
  later : list effect
}.

Definition ret {A} (a : A) : M A := mkM a [] [].

Definition bind {A B} (m : M A) (f : A -> M B) : M B :=
  let n := f (result m) in
  mkM (result n) (now m ++ now n) (later m ++ later n).

Definition emit (e : effect) : M unit := mkM tt [e] [].

Declare Scope handler_scope.
Delimit Scope handler_scope with handler.
Notation "x <- c ;; k" := (bind c (fun x => k))
  (at level 100, c at next level, right associativity) : handler_scope.
Notation "c ;; k" := (bind c (fun _ => k))
  (at level 100, right associativity) : handler_scope.
Local Open Scope handler_scope.

(** The effects of a task up to and including its first request, and the
    rest: an [async] function called without [await] runs to its first
    [await] and returns. *)
Fixpoint upto_request (es : list effect) : list effect * list effect :=
  match es with
  | [] => ([], [])
  | e :: es' =>
      if is_request e then ([e], es')
      else let (a, b) := upto_request es' in (e :: a, b)
  end.

(** [p()] without [await]. *)
Definition detach (p : M unit) : M unit :=
  let (a, b) := upto_request (now p) in
  mkM tt a (b ++ later p).

(** All effects of a handler, in the order they happen. *)
Definition effects {A} (m : M A) : list effect := now m ++ later m.

Definition requests {A} (m : M A) : list request :=
  flat_map (fun e => match e with Request r => [r] | _ => [] end) (effects m).

(** The state once every setter call of the handler has been applied. *)
Definition exec {A} (m : M A) (st : state) : state :=
  fold_left apply (effects m) st.

(* ===================================================================== *)
(** ** The messages *)
(* ===================================================================== *)

Definition msg_fetch_failed : jsstring :=
  lit "Failed to fetch events. Check backend URL or CORS.".

Definition msg_fill_out (key : jsstring) : jsstring :=
  lit "Please fill out the " ++ key ++ lit " field.".

(** U+2705 *)
Definition msg_added : jsstring := 0x2705%N :: lit " Event added successfully.".
Definition msg_updated : jsstring := 0x2705%N :: lit " Event updated successfully.".

(** U+274C *)
Definition msg_add_error : jsstring := 0x274C%N :: lit " Error adding event.".
Definition msg_update_error : jsstring := 0x274C%N :: lit " Error updating event.".
Definition msg_delete_error : jsstring := 0x274C%N :: lit " Error deleting event.".
Definition msg_not_found : jsstring := 0x274C%N :: lit " Event not found.".

(** U+1F5D1 (a surrogate pair) U+FE0F *)
Definition msg_deleted : jsstring :=
  0xD83D%N :: 0xDDD1%N :: 0xFE0F%N :: lit " Event deleted successfully.".

(** U+26A0 U+FE0F *)
Definition msg_enter_id : jsstring :=
  0x26A0%N :: 0xFE0F%N :: lit " Enter an event ID to fetch.".

(** U+270F U+FE0F *)
Definition msg_editing (id : value) : jsstring :=
  0x270F%N :: 0xFE0F%N :: lit " Editing event with ID " ++ to_string id.

(** The class the banner gets next to [message-banner]. *)
Definition severity (m : jsstring) : jsstring :=
  if includes (toLowerCase m) (lit "error") then lit "error" else lit "success".

(** [message && <div ...>]: the banner is rendered for a non-empty message. *)
Definition banner (st : state) : option (jsstring * jsstring) :=
  if truthy (VStr (message st)) then Some (severity (message st), message st)
  else None.

(* ===================================================================== *)
(** ** The component *)
(* ===================================================================== *)

Section EventManagement.

(** [`${import.meta.env.VITE_API_URL}/eventapi`] *)
Variable baseUrl : jsstring.

(** How the backend answers each request. *)
Variable api : request -> response.

(** The render whose state cells the handlers close over. *)
Variable s : state.

Definition setEvents (v : value) : M unit := emit (SetEvents v).
Definition setEvent (o : obj) : M unit := emit (SetEvent o).
Definition setIdToFetch (i : jsstring) : M unit := emit (SetIdToFetch i).
Definition setFetchedEvent (v : value) : M unit := emit (SetFetchedEvent v).
Definition setMessage (m : jsstring) : M unit := emit (SetMessage m).
Definition setEditMode (b : bool) : M unit := emit (SetEditMode b).

(** [await axios.<method>(...)] *)
Definition await (r : request) : M response := mkM (api r) [Request r] [].

Definition fetchAllEvents : M unit :=
  response <- await (mkRequest GET (baseUrl ++ lit "/all") None) ;;
  match response with
  | Resolved data =>
      if isArray data then setEvents data
      else if truthy data && isArray (prop data (lit "data"))
           then setEvents (prop data (lit "data"))
           else setEvents (VArr [])
  | Rejected =>
      setMessage msg_fetch_failed ;;
      setEvents (VArr [])
  end.

Definition addEventApi (e : obj) : M response :=
  await (mkRequest POST (baseUrl ++ lit "/add") (Some (VObj e))).
Definition updateEventApi (e : obj) : M response :=
  await (mkRequest PUT (baseUrl ++ lit "/update") (Some (VObj e))).
Definition deleteEventApi (id : value) : M response :=
  await (mkRequest DELETE (baseUrl ++ lit "/delete/" ++ to_string id) None).
Definition fetchEventByIdApi (id : jsstring) : M response :=
  await (mkRequest GET (baseUrl ++ lit "/get/" ++ id) None).

(** [useEffect(() => { fetchAllEvents(); }, [])] *)
Definition mount : M unit := detach fetchAllEvents.

Definition handleChange (name val : jsstring) : M unit :=
  setEvent (set_prop (event s) name (VStr val)).

(** [!event[key] || event[key].toString().trim() === ""] *)
Definition blank (v : value) : bool :=
  negb (truthy v) || str_eqb (trim (to_string v)) [].

(** The body of [for (let key in event)], over the keys still to visit. *)
Fixpoint validate_loop (ks : list jsstring) : M bool :=
  match ks with
  | [] => ret true
  | key :: ks' =>
      if blank (get (event s) key) then
        setMessage (msg_fill_out key) ;;
        ret false
      else validate_loop ks'
  end.

Definition validateForm : M bool := validate_loop (keys (event s)).

Definition resetForm : M unit :=
  setEvent emptyEvent ;;
  setEditMode false.

Definition handleAddEvent : M unit :=
  ok <- validateForm ;;
  if negb ok then ret tt else
  r <- addEventApi (event s) ;;
  match r with
  | Resolved _ =>
      setMessage msg_added ;;
      detach fetchAllEvents ;;
      resetForm
  | Rejected => setMessage msg_add_error
  end.

Definition handleUpdateEvent : M unit :=
  ok <- validateForm ;;
  if negb ok then ret tt else
  r <- updateEventApi (event s) ;;
  match r with
  | Resolved _ =>
      setMessage msg_updated ;;
      detach fetchAllEvents ;;
      resetForm
  | Rejected => setMessage msg_update_error
  end.

Definition handleDeleteEvent (id : value) : M unit :=
  r <- deleteEventApi id ;;
  match r with
  | Resolved _ =>
      setMessage msg_deleted ;;
      detach fetchAllEvents
  | Rejected => setMessage msg_delete_error
  end.

Definition handleFetchById : M unit :=
  if negb (truthy (VStr (idToFetch s))) then
    setMessage msg_enter_id
  else
    r <- fetchEventByIdApi (idToFetch s) ;;
    match r with
    | Resolved data =>
        setFetchedEvent data ;;
        setMessage []
    | Rejected =>
        setFetchedEvent VNull ;;
        setMessage msg_not_found
    end.

(** The row handed over by the table's Edit button, an object. *)
Definition handleEdit (e : obj) : M unit :=
  setEvent e ;;
  setEditMode true ;;
  setMessage (msg_editing (get e (lit "id"))).

End EventManagement.

(* ===================================================================== *)
(** ** Operations and runs *)
(* ===================================================================== *)

(** What can happen to the component: the mount effect, a keystroke in a
    form field or in the lookup box, the form's validation, and the buttons. *)
Inductive op : Type :=
| OpMount
| OpChange (name val : jsstring)
| OpTypeId (val : jsstring)
| OpValidate
| OpAdd
| OpUpdate
| OpDelete (id : value)
| OpFetchById
| OpEdit (e : obj)
| OpReset.

Definition program (baseUrl : jsstring) (api : request -> response)
    (s : state) (o : op) : M unit :=
  match o with
  | OpMount => mount baseUrl api
  | OpChange name val => handleChange s name val
  | OpTypeId val => setIdToFetch val
  | OpValidate => _ <- validateForm s ;; ret tt
  | OpAdd => handleAddEvent baseUrl api s
  | OpUpdate => handleUpdateEvent baseUrl api s
  | OpDelete id => handleDeleteEvent baseUrl api id
  | OpFetchById => handleFetchById baseUrl api s
  | OpEdit e => handleEdit e
  | OpReset => resetForm
  end.

(** One operation run to completion on the render [st]. *)
Definition step (baseUrl : jsstring) (api : request -> response)
    (o : op) (st : state) : state :=
  exec (program baseUrl api st o) st.

(** A sequence of operations, each with the backend's behaviour at that
    time, run one after the other. *)
Fixpoint run (baseUrl : jsstring) (acts : list ((request -> response) * op))
    (st : state) : state :=
  match acts with
  | [] => st
  | (api, o) :: acts' => run baseUrl acts' (step baseUrl api o st)
  end.

Definition is_fetch_by_id (o : op) : bool :=
  match o with
  | OpFetchById => true
  | _ => false
  end.

(* ===================================================================== *)
(** ** The specification's vocabulary *)
(* ===================================================================== *)

(** An Event of the data model: five strings. *)
Record Event : Type := mkEvent {
  ev_id : jsstring;
  ev_name : jsstring;
  ev_date : jsstring;
  ev_location : jsstring;
  ev_organizer : jsstring
}.

(** The draft object the form holds for an Event: the shape of the
    [useState] literal, keys in the order the source writes them. *)
Definition draft_of (ev : Event) : obj :=
  [ (lit "id", VStr (ev_id ev)); (lit "name", VStr (ev_name ev));
    (lit "date", VStr (ev_date ev)); (lit "location", VStr (ev_location ev));
    (lit "organizer", VStr (ev_organizer ev)) ].

(** The canonical field order of the specification. *)
Definition canonical : list jsstring :=
  [ lit "id"; lit "name"; lit "date"; lit "location"; lit "organizer" ].

Definition empty_after_trim (v : value) : bool :=
  match v with
  | VStr x => str_eqb (trim x) []
  | _ => false
  end.

(** [validate()] in the specification's words: the first field, in canonical
    order, whose trimmed value is empty; [None] is success. *)
Definition spec_validate (o : obj) : option jsstring :=
  find (fun k => empty_after_trim (get o k)) canonical.

(** The mode of the form and the transitions the specification gives it. *)
Inductive mode : Type := CreateMode | EditMode.

Definition mode_of (st : state) : mode :=
  if editMode st then EditMode else CreateMode.

Inductive label : Type :=
| SelectedForEdit
| WasReset
| UpdateSucceeded
| CreateSucceeded
| Other.

Definition mode_step (m : mode) (l : label) : mode :=
  match l with
  | SelectedForEdit => EditMode
  | WasReset => CreateMode
  | UpdateSucceeded => CreateMode
  | CreateSucceeded => CreateMode
  | Other => m
  end.

Definition resolved (r : response) : bool :=
  match r with
  | Resolved _ => true
  | Rejected => false
  end.

(** What an operation amounts to for the mode machine: a create or an update
    counts when the draft validated and the backend accepted the request. *)
Definition label_of (baseUrl : jsstring) (api : request -> response)
    (o : op) (st : state) : label :=
  match o with
  | OpEdit _ => SelectedForEdit
  | OpReset => WasReset
  | OpAdd =>
      if result (validateForm st)
         && resolved (api (mkRequest POST (baseUrl ++ lit "/add") (Some (VObj (event st)))))
      then CreateSucceeded else Other
  | OpUpdate =>
      if result (validateForm st)
         && resolved (api (mkRequest PUT (baseUrl ++ lit "/update") (Some (VObj (event st)))))
      then UpdateSucceeded else Other
  | _ => Other
  end.

(** The mode machine run along a sequence of operations. *)
Fixpoint mode_run (baseUrl : jsstring) (acts : list ((request -> response) * op))
    (st : state) (m : mode) : mode :=
  match acts with
  | [] => m
  | (api, o) :: acts' =>
      mode_run baseUrl acts' (step baseUrl api o st)
               (mode_step m (label_of baseUrl api o st))
  end.

(** A row whose keys come in another order than the form's, with two empty
    fields, and a backend that lists it. *)
Definition reordered_row : obj :=
  [ (lit "name", VStr []); (lit "id", VStr []);
    (lit "date", VStr (lit "2025-01-01")); (lit "location", VStr (lit "HQ"));
    (lit "organizer", VStr (lit "Alice")) ].

Definition lists_reordered_row (r : request) : response :=
  Resolved (VArr [VObj reordered_row]).

(** The state once the component has mounted against that backend and the
    row's Edit button was pressed. *)
Definition editing_reordered_row : state :=
  run [] [ (lists_reordered_row, OpMount);
           (lists_reordered_row, OpEdit reordered_row) ] initial.

(** The scenario of the specification: the form holding the Launch event,
    in edit mode. *)
Definition launch : Event :=
  mkEvent (lit "1") (lit "Launch") (lit "2025-01-01") (lit "HQ") (lit "Alice").

Definition editing_launch : state :=
  mkState (VArr [VObj (draft_of launch)]) (draft_of launch) [] VNull [] true.

(** A handler keeps an observation [f] of the state when none of its effects
    changes it. *)
Definition keeps {B} (f : state -> B) (e : effect) : Prop :=
  forall st, f (apply st e) = f st.

Definition preserves {B A} (f : state -> B) (m : M A) : Prop :=
  Forall (keeps f) (effects m).

(** The state after a handler agrees with the state before it on everything
    but the message. *)
Definition only_message_changed (st st' : state) : Prop :=
  events st' = events st /\ event st' = event st /\
  idToFetch st' = idToFetch st /\ fetchedEvent st' = fetchedEvent st /\
  editMode st' = editMode st.

(** The specification's [validate] and [validateForm] agree on the draft of
    [st]: same verdict, and the field named is the first empty one in
    canonical order. *)
Definition validate_agrees_with_spec (st : state) : Prop :=
  (result (validateForm st) = true <-> spec_validate (event st) = None) /\
  (forall key, spec_validate (event st) = Some key ->
     effects (validateForm st) = [SetMessage (msg_fill_out key)]).

(* ===================================================================== *)
(** ** The render *)
(* ===================================================================== *)

(** The [name] attributes of the five inputs of the form, top to bottom. *)
Definition input_names : list jsstring :=
  [ lit "id"; lit "name"; lit "date"; lit "location"; lit "organizer" ].

(** Whether the render of [st] lets the user start [o].  A keystroke comes
    from one of the five inputs; the Add button is there when [editMode] is
    off, the Update and Cancel buttons when it is on; the lookup box and its
    Fetch button are always there.  Edit and Delete are let through for any
    row and id, and so are the mount effect and validation: this only widens
    the runs considered. *)
Definition offered (st : state) (o : op) : bool :=
  match o with
  | OpChange name _ => existsb (str_eqb name) input_names
  | OpAdd => negb (editMode st)
  | OpUpdate | OpReset => editMode st
  | _ => true
  end.

(** A run every operation of which the render before it offered. *)
Fixpoint offered_run (baseUrl : jsstring)
    (acts : list ((request -> response) * op)) (st : state) : bool :=
  match acts with
  | [] => true
  | (api, o) :: acts' =>
      offered st o && offered_run baseUrl acts' (step baseUrl api o st)
  end.

(** [fetchedEvent && (<div>...</div>)]: the body shown under "Event Found". *)
Definition lookup_panel (st : state) : option value :=
  if truthy (fetchedEvent st) then Some (fetchedEvent st) else None.

(** [events.length] *)
Definition array_length (v : value) : nat :=
  match v with
  | VArr xs => List.length xs
  | _ => 0
  end.

(** [!Array.isArray(events) || events.length === 0 ? <p>No events found.</p>
    : <table>...]: the column heads [Object.keys(event)] of the table, [None]
    when "No events found." is shown instead. *)
Definition table_header (st : state) : option (list jsstring) :=
  if negb (isArray (events st)) || Nat.eqb (array_length (events st)) 0
  then None
  else Some (keys (event st)).

(** When an operation sends nothing: the form's own operations never do, a
    create or update when validation fails, the lookup when the box is
    empty. *)
Definition sends_nothing (st : state) (o : op) : bool :=
  match o with
  | OpChange _ _ | OpTypeId _ | OpValidate | OpEdit _ | OpReset => true
  | OpAdd | OpUpdate => negb (result (validateForm st))
  | OpFetchById => str_eqb (idToFetch st) []
  | OpMount | OpDelete _ => false
  end.

(** The five requests of the component, for the render [st]: the list, the
    create and the update with the draft as body, a delete of some id, the
    lookup of what the lookup box holds. *)
Definition api_request (baseUrl : jsstring) (st : state) (r : request) : Prop :=
  r = mkRequest GET (baseUrl ++ lit "/all") None \/
  r = mkRequest POST (baseUrl ++ lit "/add") (Some (VObj (event st))) \/
  r = mkRequest PUT (baseUrl ++ lit "/update") (Some (VObj (event st))) \/
  (exists id, r = mkRequest DELETE (baseUrl ++ lit "/delete/" ++ to_string id) None) \/
  r = mkRequest GET (baseUrl ++ lit "/get/" ++ idToFetch st) None.



(** The user types the Launch event into the empty form, field by field. *)
Definition typing_launch (api : request -> response)
    : list ((request -> response) * op) :=
  [ (api, OpMount);
    (api, OpChange (lit "id") (lit "1"));
    (api, OpChange (lit "name") (lit "Launch"));
    (api, OpChange (lit "date") (lit "2025-01-01"));
    (api, OpChange (lit "location") (lit "HQ"));
    (api, OpChange (lit "organizer") (lit "Alice")) ].

(** Every effect of a handler satisfies [P]. *)
Definition all_effects {A} (P : effect -> Prop) (m : M A) : Prop :=
  Forall P (effects m).

(** A [setEvents] hands over an array. *)
Definition sets_array (e : effect) : Prop :=
  match e with
  | SetEvents v => isArray v = true
  | _ => True
  end.

(** In create mode the draft has the form's shape. *)
Definition create_draft_in_form_order (st : state) : Prop :=
  editMode st = false -> exists ev, event st = draft_of ev.

(** All five fields of an Event are non-empty after trimming. *)
Definition complete (ev : Event) : Prop :=
  trim (ev_id ev) <> [] /\ trim (ev_name ev) <> [] /\
  trim (ev_date ev) <> [] /\ trim (ev_location ev) <> [] /\
  trim (ev_organizer ev) <> [].

(* ===================================================================== *)
(** * Properties *)
(* ===================================================================== *)

Unset Implicit Arguments.

(** ** Strings *)

Lemma str_eqb_eq (a b : jsstring) : str_eqb a b = true <-> a = b.
Proof.
  revert b; induction a as [|x a IH]; intros [|y b]; simpl;
    try (split; [discriminate | congruence]).
  - split; reflexivity.
  - rewrite andb_true_iff, N.eqb_eq, IH. split.
    + intros [-> ->]; reflexivity.
    + intros E; inversion E; auto.
Qed.


Lemma str_eqb_nil (a : jsstring) : str_eqb a [] = true <-> a = [].
Proof. apply str_eqb_eq. Qed.

Lemma trim_nil : trim [] = [].
Proof. reflexivity. Qed.

(** A string is blank exactly when trimming leaves nothing: [!x] adds no
    case, the empty string trims to itself. *)
Lemma blank_str (x : jsstring) : blank (VStr x) = str_eqb (trim x) [].
Proof. destruct x; reflexivity. Qed.

Lemma blank_empty_after_trim (x : jsstring) :
  trim x = [] -> blank (VStr x) = true.
Proof. intros E; rewrite blank_str, E; reflexivity. Qed.

Example trim_samples :
  trim (lit "  Launch v2 ") = lit "Launch v2" /\
  trim [9; 160; 8195; 10; 65279]%N = [] /\
  trim (lit " ") = [] /\
  trim (lit "0") = lit "0".
Proof. repeat split; reflexivity. Qed.

Example to_string_samples :
  to_string (VNum (-20)) = lit "-20" /\
  to_string (VArr [VNum 1; VNull; VArr []; VStr (lit "a")]) = lit "1,,,a" /\
  to_string (VObj [(lit "id", VNum 1)]) = lit "[object Object]".
Proof. repeat split; reflexivity. Qed.

(** What counts as blank for [validateForm]: the empty and the
    whitespace-only string, [null], [false], the number 0 and the empty
    array; not "0", not the number 1, not an object. *)
Example blank_samples :
  blank (VStr []) = true /\ blank (VStr (lit "   ")) = true /\
  blank VNull = true /\ blank (VBool false) = true /\
  blank (VNum 0) = true /\ blank (VArr []) = true /\
  blank (VStr (lit "0")) = false /\ blank (VNum 1) = false /\
  blank (VObj []) = false.
Proof. repeat split; reflexivity. Qed.

(** A property that is read is a property the object has. *)
Lemma get_in_keys (o : obj) (k : jsstring) :
  get o k <> VUndefined -> In k (keys o).
Proof.
  induction o as [|[k' v] o IH]; simpl; intros H.
  - congruence.
  - destruct (str_eqb k' k) eqn:E.
    + left; apply str_eqb_eq; exact E.
    + right; auto.
Qed.

(** ** The monad *)

Lemma upto_request_app (es : list effect) :
  fst (upto_request es) ++ snd (upto_request es) = es.
Proof.
  induction es as [|e es IH]; simpl; [reflexivity|].
  destruct (is_request e); simpl; [reflexivity|].
  destruct (upto_request es) as [a b]; simpl in *; congruence.
Qed.

Lemma effects_bind {A B} (m : M A) (f : A -> M B) :
  effects (bind m f) =
  now m ++ now (f (result m)) ++ later m ++ later (f (result m)).
Proof. unfold effects, bind; simpl. rewrite <- app_assoc; reflexivity. Qed.

Lemma effects_detach (p : M unit) :
  effects (detach p) = effects p.
Proof.
  unfold effects, detach.
  pose proof (upto_request_app (now p)) as E.
  destruct (upto_request (now p)) as [a b]; simpl in *.
  rewrite <- E, <- app_assoc; reflexivity.
Qed.

Lemma exec_bind_sync {A B} (m : M A) (f : A -> M B) (st : state) :
  later m = [] -> exec (bind m f) st = exec (f (result m)) (exec m st).
Proof.
  intros L; unfold exec; rewrite effects_bind, L; simpl.
  unfold effects; rewrite L, app_nil_r, fold_left_app; reflexivity.
Qed.

(** ** Frames *)

Section Frame.

Context {B : Type} (f : state -> B).

Lemma preserves_exec {A} (m : M A) (st : state) :
  preserves f m -> f (exec m st) = f st.
Proof.
  unfold preserves, exec; generalize (effects m); intros es H; revert st.
  induction H as [|e es He _ IH]; intros st; simpl; [reflexivity|].
  rewrite IH; apply He.
Qed.

Lemma preserves_ret {A} (a : A) : preserves f (ret a).
Proof. constructor. Qed.

Lemma preserves_emit (e : effect) : keeps f e -> preserves f (emit e).
Proof. intros H; repeat constructor; exact H. Qed.

Lemma preserves_await (api : request -> response) (r : request) :
  preserves f (await api r).
Proof. repeat constructor. Qed.

Lemma preserves_bind {A C} (m : M A) (k : A -> M C) :
  preserves f m -> (forall a, preserves f (k a)) -> preserves f (bind m k).
Proof.
  unfold preserves; intros Hm Hk; specialize (Hk (result m)).
  rewrite effects_bind. unfold effects in *.
  apply Forall_app in Hm as [Hm1 Hm2]; apply Forall_app in Hk as [Hk1 Hk2].
  repeat (apply Forall_app; split); assumption.
Qed.

Lemma preserves_detach (p : M unit) : preserves f p -> preserves f (detach p).
Proof. unfold preserves; rewrite effects_detach; auto. Qed.

Lemma preserves_validate_loop (s : state) (ks : list jsstring) :
  (forall m, keeps f (SetMessage m)) -> preserves f (validate_loop s ks).
Proof.
  intros H; induction ks as [|k ks IH]; simpl.
  - apply preserves_ret.
  - destruct (blank (get (event s) k)); [|exact IH].
    apply preserves_bind; [apply preserves_emit, H | intros; apply preserves_ret].
Qed.

Lemma preserves_fetchAllEvents (baseUrl : jsstring) (api : request -> response) :
  (forall m, keeps f (SetMessage m)) -> (forall v, keeps f (SetEvents v)) ->
  preserves f (fetchAllEvents baseUrl api).
Proof.
  intros Hm He; unfold fetchAllEvents.
  apply preserves_bind; [apply preserves_await|].
  intros [data|].
  - destruct (isArray data); [apply preserves_emit, He|].
    destruct (truthy data && isArray (prop data (lit "data")));
      apply preserves_emit, He.
  - apply preserves_bind; [apply preserves_emit, Hm|].
    intros; apply preserves_emit, He.
Qed.

End Frame.

(** ** Validation *)

(** The loop stops at the first key, in enumeration order, whose value is
    blank, and names it. *)
Lemma validate_loop_find (s : state) (ks : list jsstring) :
  validate_loop s ks =
  match find (fun k => blank (get (event s) k)) ks with
  | Some key => mkM false [SetMessage (msg_fill_out key)] []
  | None => ret true
  end.
Proof.
  induction ks as [|k ks IH]; simpl; [reflexivity|].
  destruct (blank (get (event s) k)); [reflexivity | exact IH].
Qed.

Lemma validateForm_shape (s : state) :
  validateForm s = ret true \/
  exists key, In key (keys (event s)) /\
              blank (get (event s) key) = true /\
              validateForm s = mkM false [SetMessage (msg_fill_out key)] [].
Proof.
  unfold validateForm; rewrite validate_loop_find.
  destruct (find _ (keys (event s))) as [key|] eqn:E; [right | left; reflexivity].
  apply find_some in E as [Hin Hb]; exists key; auto.
Qed.

Lemma validateForm_passed (s : state) :
  result (validateForm s) = true -> validateForm s = ret true.
Proof.
  destruct (validateForm_shape s) as [E | (key & _ & _ & E)]; rewrite E;
    [reflexivity | discriminate].
Qed.

(** A draft with a blank field does not validate. *)
Lemma validateForm_blank (s : state) (k : jsstring) :
  get (event s) k <> VUndefined -> blank (get (event s) k) = true ->
  exists key, validateForm s = mkM false [SetMessage (msg_fill_out key)] [].
Proof.
  intros Hk Hb.
  destruct (validateForm_shape s) as [E | (key & _ & _ & E)]; [|eauto].
  exfalso. unfold validateForm in E; rewrite validate_loop_find in E.
  destruct (find _ (keys (event s))) eqn:F; [discriminate|].
  apply find_none with (x := k) in F; [congruence|].
  apply get_in_keys; exact Hk.
Qed.

(** C1.  Whenever some field of the draft is empty after trimming, the Add
    and the Update buttons send nothing: the only effect of
    [handleAddEvent] and of [handleUpdateEvent] is one [setMessage] with the
    validation message, so the state afterwards differs in the message
    alone. *)
Theorem empty_field_blocks_submit
    (baseUrl : jsstring) (api : request -> response) (st : state)
    (k x : jsstring) :
  get (event st) k = VStr x -> trim x = [] ->
  exists key,
    (effects (handleAddEvent baseUrl api st) = [SetMessage (msg_fill_out key)] /\
     requests (handleAddEvent baseUrl api st) = [] /\
     exec (handleAddEvent baseUrl api st) st = with_message st (msg_fill_out key)) /\
    (effects (handleUpdateEvent baseUrl api st) = [SetMessage (msg_fill_out key)] /\
     requests (handleUpdateEvent baseUrl api st) = [] /\
     exec (handleUpdateEvent baseUrl api st) st = with_message st (msg_fill_out key)).
Proof.
  intros Hk Hx.
  destruct (validateForm_blank st k) as [key E].
  - rewrite Hk; discriminate.
  - rewrite Hk; apply blank_empty_after_trim; exact Hx.
  - exists key.
    unfold handleAddEvent, handleUpdateEvent, requests, exec, effects.
    rewrite E; simpl; repeat split; reflexivity.
Qed.

Lemma empty_field_blocks_submit_witness :
  get (event initial) (lit "name") = VStr [] /\ trim [] = [] /\
  exists key,
    (effects (handleAddEvent [] (fun _ => Resolved VNull) initial)
       = [SetMessage (msg_fill_out key)] /\
     requests (handleAddEvent [] (fun _ => Resolved VNull) initial) = [] /\
     exec (handleAddEvent [] (fun _ => Resolved VNull) initial) initial
       = with_message initial (msg_fill_out key)) /\
    (effects (handleUpdateEvent [] (fun _ => Resolved VNull) initial)
       = [SetMessage (msg_fill_out key)] /\
     requests (handleUpdateEvent [] (fun _ => Resolved VNull) initial) = [] /\
     exec (handleUpdateEvent [] (fun _ => Resolved VNull) initial) initial
       = with_message initial (msg_fill_out key)).
Proof.
  split; [reflexivity | split; [reflexivity |]].
  apply (empty_field_blocks_submit [] (fun _ => Resolved VNull) initial
           (lit "name") []); reflexivity.
Defined.

Lemma str_eqb_false_nil (a : jsstring) : str_eqb a [] = false <-> a <> [].
Proof.
  rewrite <- str_eqb_nil. destruct (str_eqb a []); split; congruence.
Qed.

(** The drafts the form itself builds have the five keys in form order: the
    first render's, the one [resetForm] sets, and what a keystroke in one of
    the five inputs makes of such a draft. *)
Lemma initial_draft_in_form_order :
  event initial = draft_of (mkEvent [] [] [] [] []).
Proof. reflexivity. Qed.

Lemma resetForm_draft_in_form_order (st : state) :
  event (exec resetForm st) = draft_of (mkEvent [] [] [] [] []).
Proof. reflexivity. Qed.

Lemma handleChange_draft_in_form_order
    (st : state) (ev : Event) (name val : jsstring) :
  event st = draft_of ev -> In name canonical ->
  exists ev', event (exec (handleChange st name val) st) = draft_of ev'.
Proof.
  intros H Hin; unfold handleChange; rewrite H.
  destruct ev as [i n d l o].
  simpl in Hin; destruct Hin as [<-|[<-|[<-|[<-|[<-|[]]]]]].
  - exists (mkEvent val n d l o); reflexivity.
  - exists (mkEvent i val d l o); reflexivity.
  - exists (mkEvent i n val l o); reflexivity.
  - exists (mkEvent i n d val o); reflexivity.
  - exists (mkEvent i n d l val); reflexivity.
Qed.

(** C2, as amended.  For every draft that holds the five fields as strings
    in the form's key order, [validateForm] succeeds exactly when all five
    are non-empty after trimming, and when it fails the field it names is
    the first empty-after-trim field in the canonical order id, name, date,
    location, organizer. *)
Theorem validateForm_on_form_drafts (st : state) (ev : Event) :
  event st = draft_of ev ->
  validate_agrees_with_spec st /\
  (result (validateForm st) = true <->
   trim (ev_id ev) <> [] /\ trim (ev_name ev) <> [] /\
   trim (ev_date ev) <> [] /\ trim (ev_location ev) <> [] /\
   trim (ev_organizer ev) <> []).
Proof.
  intros H.
  unfold validate_agrees_with_spec, validateForm, spec_validate.
  rewrite validate_loop_find, H.
  cbn -[trim blank msg_fill_out].
  rewrite !blank_str, <- !str_eqb_false_nil.
  destruct (str_eqb (trim (ev_id ev)) []);
    destruct (str_eqb (trim (ev_name ev)) []);
    destruct (str_eqb (trim (ev_date ev)) []);
    destruct (str_eqb (trim (ev_location ev)) []);
    destruct (str_eqb (trim (ev_organizer ev)) []);
    cbn -[msg_fill_out];
    (split;
     [ split; [split; congruence | intros key E; inversion E; reflexivity]
     | split; [try discriminate; tauto | intros (? & ? & ? & ? & ?); congruence] ]).
Qed.

Lemma validateForm_on_form_drafts_witness :
  event (with_event initial
           (draft_of (mkEvent (lit "1") (lit " ") [] (lit "HQ") [])))
    = draft_of (mkEvent (lit "1") (lit " ") [] (lit "HQ") []) /\
  effects (validateForm
             (with_event initial
                (draft_of (mkEvent (lit "1") (lit " ") [] (lit "HQ") []))))
    = [SetMessage (msg_fill_out (lit "name"))].
Proof.
  split; [reflexivity|].
  apply (validateForm_on_form_drafts
           (with_event initial
              (draft_of (mkEvent (lit "1") (lit " ") [] (lit "HQ") [])))
           (mkEvent (lit "1") (lit " ") [] (lit "HQ") []) eq_refl).
  reflexivity.
Defined.

(** C2 as stated fails on a draft loaded from a table row: [handleEdit]
    stores the row itself, and [for ... in] follows the row's own key order.
    The backend lists the row [{name: "", id: "", date: "2025-01-01",
    location: "HQ", organizer: "Alice"}], Edit is pressed on it, then Update:
    the message names "name", while the first empty field in canonical order
    is "id". *)
Lemma validateForm_follows_row_order :
  events editing_reordered_row = VArr [VObj reordered_row] /\
  event editing_reordered_row = reordered_row /\
  spec_validate (event editing_reordered_row) = Some (lit "id") /\
  effects (validateForm editing_reordered_row)
    = [SetMessage (msg_fill_out (lit "name"))] /\
  effects (handleUpdateEvent [] lists_reordered_row editing_reordered_row)
    = [SetMessage (msg_fill_out (lit "name"))] /\
  ~ validate_agrees_with_spec editing_reordered_row.
Proof.
  repeat split; try reflexivity.
  intros [_ H]. specialize (H (lit "id") eq_refl).
  vm_compute in H. discriminate H.
Qed.

(** ** The list fetch *)

Lemma exec_fetchAllEvents
    (baseUrl : jsstring) (api : request -> response) (st : state) :
  exec (fetchAllEvents baseUrl api) st =
  match api (mkRequest GET (baseUrl ++ lit "/all") None) with
  | Resolved data =>
      if isArray data then with_events st data
      else if truthy data && isArray (prop data (lit "data"))
           then with_events st (prop data (lit "data"))
           else with_events st (VArr [])
  | Rejected => with_events (with_message st msg_fetch_failed) (VArr [])
  end.
Proof.
  unfold fetchAllEvents, exec, effects, bind, await; cbn [result now later].
  destruct (api _) as [data|]; [|reflexivity].
  destruct (isArray data); [reflexivity|].
  destruct (truthy data && isArray (prop data (lit "data"))); reflexivity.
Qed.

(** C3.  [fetchAllEvents] by the shape of the answer to GET /all: a bare
    array becomes [events]; an object whose [data] is an array hands over
    that inner array; any other resolved body makes [events] the empty
    array; in these three cases nothing but [events] changes, so no message
    is set.  A rejected request makes [events] the empty array and sets the
    failure message. *)
Theorem fetchAllEvents_by_shape
    (baseUrl : jsstring) (api : request -> response) (st : state) :
  let answer := api (mkRequest GET (baseUrl ++ lit "/all") None) in
  let st' := exec (fetchAllEvents baseUrl api) st in
  (forall xs, answer = Resolved (VArr xs) -> st' = with_events st (VArr xs)) /\
  (forall ps xs, answer = Resolved (VObj ps) -> get ps (lit "data") = VArr xs ->
     st' = with_events st (VArr xs)) /\
  (forall data, answer = Resolved data ->
     (forall xs, data <> VArr xs) ->
     (forall ps xs, data = VObj ps -> get ps (lit "data") <> VArr xs) ->
     st' = with_events st (VArr []) /\ message st' = message st) /\
  (answer = Rejected ->
     events st' = VArr [] /\ message st' = msg_fetch_failed /\
     st' = with_events (with_message st msg_fetch_failed) (VArr [])).
Proof.
  cbv zeta; rewrite exec_fetchAllEvents.
  assert (Hother : forall data,
             (forall xs, data <> VArr xs) ->
             (forall ps xs, data = VObj ps -> get ps (lit "data") <> VArr xs) ->
             (if isArray data then with_events st data
              else if truthy data && isArray (prop data (lit "data"))
                   then with_events st (prop data (lit "data"))
                   else with_events st (VArr []))
             = with_events st (VArr [])).
  { intros data Harr Henv.
    destruct data as [| |b|z|x|xs|ps]; try reflexivity.
    - destruct b; reflexivity.
    - cbn [isArray truthy prop]; rewrite andb_false_r; reflexivity.
    - cbn [isArray truthy prop]; rewrite andb_false_r; reflexivity.
    - exfalso; apply (Harr xs); reflexivity.
    - cbn [isArray truthy andb prop].
      destruct (get ps (lit "data")) as [| | | | |xs|] eqn:E; try reflexivity.
      exfalso; apply (Henv ps xs); [reflexivity | exact E]. }
  split; [|split; [|split]].
  - intros xs H; rewrite H; reflexivity.
  - intros ps xs H Hd; rewrite H; cbn [isArray truthy andb prop].
    rewrite Hd; reflexivity.
  - intros data H Harr Henv; rewrite H, (Hother data Harr Henv).
    split; reflexivity.
  - intros H; rewrite H; repeat split; reflexivity.
Qed.

Lemma fetchAllEvents_by_shape_witness :
  exec (fetchAllEvents [] (fun _ => Resolved (VArr [VNum 1]))) initial
    = with_events initial (VArr [VNum 1]) /\
  exec (fetchAllEvents [] (fun _ => Resolved (VObj [(lit "data", VArr [VNum 1])])))
       initial
    = with_events initial (VArr [VNum 1]) /\
  (exec (fetchAllEvents [] (fun _ => Resolved (VStr (lit "<html>"))))
        (with_message initial msg_added)
     = with_events (with_message initial msg_added) (VArr []) /\
   message (exec (fetchAllEvents [] (fun _ => Resolved (VStr (lit "<html>"))))
                 (with_message initial msg_added))
     = msg_added) /\
  events (exec (fetchAllEvents [] (fun _ => Rejected)) initial) = VArr [] /\
  message (exec (fetchAllEvents [] (fun _ => Rejected)) initial) = msg_fetch_failed.
Proof.
  split; [|split; [|split]].
  - apply (proj1 (fetchAllEvents_by_shape [] (fun _ => Resolved (VArr [VNum 1]))
                    initial) [VNum 1] eq_refl).
  - apply (proj1 (proj2 (fetchAllEvents_by_shape []
                    (fun _ => Resolved (VObj [(lit "data", VArr [VNum 1])]))
                    initial))
             [(lit "data", VArr [VNum 1])] [VNum 1] eq_refl eq_refl).
  - apply (proj1 (proj2 (proj2 (fetchAllEvents_by_shape []
                    (fun _ => Resolved (VStr (lit "<html>")))
                    (with_message initial msg_added))))
             (VStr (lit "<html>")) eq_refl).
    + intros xs; discriminate.
    + intros ps xs; discriminate.
  - destruct (proj2 (proj2 (proj2 (fetchAllEvents_by_shape []
                    (fun _ => Rejected) initial))) eq_refl) as (He & Hm & _).
    split; [exact He | exact Hm].
Defined.

(** ** Create and update *)

(** C4.  With a draft that validates, a rejected POST /add or PUT /update
    leaves [events], the draft, the lookup box, [fetchedEvent] and
    [editMode] as they were: the handler sends the one request and sets the
    error message, nothing else. *)
Theorem rejected_submit_only_sets_message
    (baseUrl : jsstring) (api : request -> response) (st : state) :
  result (validateForm st) = true ->
  (api (mkRequest POST (baseUrl ++ lit "/add") (Some (VObj (event st)))) = Rejected ->
   message (exec (handleAddEvent baseUrl api st) st) = msg_add_error /\
   only_message_changed st (exec (handleAddEvent baseUrl api st) st) /\
   requests (handleAddEvent baseUrl api st)
     = [mkRequest POST (baseUrl ++ lit "/add") (Some (VObj (event st)))]) /\
  (api (mkRequest PUT (baseUrl ++ lit "/update") (Some (VObj (event st)))) = Rejected ->
   message (exec (handleUpdateEvent baseUrl api st) st) = msg_update_error /\
   only_message_changed st (exec (handleUpdateEvent baseUrl api st) st) /\
   requests (handleUpdateEvent baseUrl api st)
     = [mkRequest PUT (baseUrl ++ lit "/update") (Some (VObj (event st)))]).
Proof.
  intros V; apply validateForm_passed in V.
  split; intros R.
  - unfold handleAddEvent, addEventApi, requests, exec, effects, bind, await.
    rewrite V; cbn [result now later ret negb]; rewrite R.
    repeat split; reflexivity.
  - unfold handleUpdateEvent, updateEventApi, requests, exec, effects, bind, await.
    rewrite V; cbn [result now later ret negb]; rewrite R.
    repeat split; reflexivity.
Qed.

Lemma rejected_submit_only_sets_message_witness :
  result (validateForm editing_launch) = true /\
  message (exec (handleAddEvent [] (fun _ => Rejected) editing_launch)
                editing_launch) = msg_add_error /\
  only_message_changed editing_launch
    (exec (handleAddEvent [] (fun _ => Rejected) editing_launch) editing_launch) /\
  message (exec (handleUpdateEvent [] (fun _ => Rejected) editing_launch)
                editing_launch) = msg_update_error /\
  only_message_changed editing_launch
    (exec (handleUpdateEvent [] (fun _ => Rejected) editing_launch) editing_launch).
Proof.
  destruct (rejected_submit_only_sets_message [] (fun _ => Rejected)
              editing_launch eq_refl) as [Ha Hu].
  destruct (Ha eq_refl) as (A1 & A2 & _).
  destruct (Hu eq_refl) as (U1 & U2 & _).
  split; [reflexivity|].
  repeat split; solve [apply A1 | apply A2 | apply U1 | apply U2].
Defined.

(** ** Lookup by id *)

(** C5.  [handleFetchById] with an empty lookup box sends nothing and sets
    the warning; with a non-empty id it sends GET /get/<id>, and then a
    resolved request stores the returned body in [fetchedEvent] and empties
    the message, a rejected one sets [fetchedEvent] to [null] and the
    not-found message. *)
Theorem handleFetchById_cases
    (baseUrl : jsstring) (api : request -> response) (st : state) :
  let h := handleFetchById baseUrl api st in
  let get_it := mkRequest GET (baseUrl ++ lit "/get/" ++ idToFetch st) None in
  (idToFetch st = [] ->
   requests h = [] /\ message (exec h st) = msg_enter_id) /\
  (idToFetch st <> [] ->
   requests h = [get_it] /\
   (forall data, api get_it = Resolved data ->
      fetchedEvent (exec h st) = data /\ message (exec h st) = []) /\
   (api get_it = Rejected ->
      fetchedEvent (exec h st) = VNull /\ message (exec h st) = msg_not_found)).
Proof.
  cbv zeta; unfold handleFetchById, fetchEventByIdApi, requests, exec, effects,
    bind, await.
  split.
  - intros ->; repeat split; reflexivity.
  - intros Hid. destruct (idToFetch st) as [|c i] eqn:E; [congruence|].
    cbn [truthy str_eqb negb result now later].
    split; [|split].
    + destruct (api _); reflexivity.
    + intros data ->; split; reflexivity.
    + intros ->; split; reflexivity.
Qed.

Lemma handleFetchById_cases_witness :
  (idToFetch initial = [] /\
   requests (handleFetchById [] (fun _ => Resolved (VObj (draft_of launch))) initial)
     = [] /\
   message (exec (handleFetchById [] (fun _ => Resolved (VObj (draft_of launch)))
                    initial) initial) = msg_enter_id) /\
  (idToFetch (with_idToFetch editing_launch (lit "1")) = lit "1" /\
   fetchedEvent (exec (handleFetchById [] (fun _ => Resolved (VObj (draft_of launch)))
                         (with_idToFetch editing_launch (lit "1")))
                      (with_idToFetch editing_launch (lit "1")))
     = VObj (draft_of launch) /\
   message (exec (handleFetchById [] (fun _ => Resolved (VObj (draft_of launch)))
                    (with_idToFetch editing_launch (lit "1")))
                 (with_idToFetch editing_launch (lit "1"))) = []) /\
  (fetchedEvent (exec (handleFetchById [] (fun _ => Rejected)
                         (with_idToFetch editing_launch (lit "7")))
                      (with_idToFetch editing_launch (lit "7"))) = VNull /\
   message (exec (handleFetchById [] (fun _ => Rejected)
                    (with_idToFetch editing_launch (lit "7")))
                 (with_idToFetch editing_launch (lit "7"))) = msg_not_found).
Proof.
  split; [|split].
  - split; [reflexivity|].
    apply (proj1 (handleFetchById_cases []
                    (fun _ => Resolved (VObj (draft_of launch))) initial) eq_refl).
  - split; [reflexivity|].
    refine (proj1 (proj2 (proj2 (handleFetchById_cases []
                    (fun _ => Resolved (VObj (draft_of launch)))
                    (with_idToFetch editing_launch (lit "1"))) _))
              (VObj (draft_of launch)) eq_refl).
    discriminate.
  - refine (proj2 (proj2 (proj2 (handleFetchById_cases [] (fun _ => Rejected)
                    (with_idToFetch editing_launch (lit "7"))) _)) eq_refl).
    discriminate.
Defined.

(** C10.  On the empty-id path [handleFetchById] leaves [fetchedEvent] as it
    was, a record found earlier or an earlier [null] alike: the warning is
    the only write. *)
Theorem empty_id_keeps_fetchedEvent
    (baseUrl : jsstring) (api : request -> response) (st : state) :
  idToFetch st = [] ->
  fetchedEvent (exec (handleFetchById baseUrl api st) st) = fetchedEvent st /\
  exec (handleFetchById baseUrl api st) st = with_message st msg_enter_id.
Proof.
  intros E; unfold handleFetchById; rewrite E; split; reflexivity.
Qed.

Lemma empty_id_keeps_fetchedEvent_witness :
  idToFetch (with_fetchedEvent initial (VObj (draft_of launch))) = [] /\
  fetchedEvent (exec (handleFetchById [] (fun _ => Rejected)
                        (with_fetchedEvent initial (VObj (draft_of launch))))
                     (with_fetchedEvent initial (VObj (draft_of launch))))
    = VObj (draft_of launch).
Proof.
  split; [reflexivity|].
  apply (empty_id_keeps_fetchedEvent [] (fun _ => Rejected)
           (with_fetchedEvent initial (VObj (draft_of launch))) eq_refl).
Defined.

(** ** The banner *)

(** C7, evaluated.  The banner's class comes from looking for "error" in the
    lowered message.  The add, update and delete failure messages contain
    the word and get class "error".  The list-fetch failure message and the
    not-found message do not: a rejected lookup of id 42 and a rejected list
    fetch on mount both show their message under class "success". *)
Theorem failure_messages_severity :
  severity msg_add_error = lit "error" /\
  severity msg_update_error = lit "error" /\
  severity msg_delete_error = lit "error" /\
  banner (step [] (fun _ => Rejected) OpFetchById (with_idToFetch initial (lit "42")))
    = Some (lit "success", msg_not_found) /\
  banner (step [] (fun _ => Rejected) OpMount initial)
    = Some (lit "success", msg_fetch_failed).
Proof. repeat split; reflexivity. Qed.

(** ** Frames of the handlers *)

(** Solves [preserves f m] for a handler [m] none of whose setters writes the
    cell [f] reads. *)
Ltac frame :=
  repeat first
    [ apply preserves_ret
    | apply preserves_await
    | apply preserves_emit; intro; reflexivity
    | apply preserves_detach
    | apply preserves_fetchAllEvents; intros ? ?; reflexivity
    | apply preserves_validate_loop; intros ? ?; reflexivity
    | apply preserves_bind; [|intros []; cbn [negb]]
    | match goal with
      | |- preserves _ (if ?b then _ else _) => destruct b
      end ].

(** Only the lookup writes [fetchedEvent]. *)
Lemma program_preserves_fetchedEvent
    (baseUrl : jsstring) (api : request -> response) (s : state) (o : op) :
  is_fetch_by_id o = false -> preserves fetchedEvent (program baseUrl api s o).
Proof.
  destruct o; intros H; try discriminate H; cbn [program];
    unfold mount, handleChange, setIdToFetch, validateForm, handleAddEvent,
      handleUpdateEvent, handleDeleteEvent, handleEdit, resetForm,
      addEventApi, updateEventApi, deleteEventApi, setEvent, setEditMode,
      setMessage;
    frame.
Qed.

(** C8.  Every operation other than the lookup by id leaves [fetchedEvent]
    as it was, whatever the backend answers: a keystroke in the form or in
    the lookup box, validation, Edit, Reset, Add, Update, Delete and the
    list fetch, on their success and failure paths alike. *)
Theorem only_lookup_writes_fetchedEvent
    (baseUrl : jsstring) (api : request -> response) (o : op) (st : state) :
  is_fetch_by_id o = false ->
  fetchedEvent (step baseUrl api o st) = fetchedEvent st.
Proof.
  intros H; unfold step.
  apply preserves_exec, program_preserves_fetchedEvent, H.
Qed.

Lemma only_lookup_writes_fetchedEvent_witness :
  is_fetch_by_id OpUpdate = false /\
  fetchedEvent (step [] (fun _ => Rejected) OpUpdate
                  (with_fetchedEvent editing_launch (VObj (draft_of launch))))
    = VObj (draft_of launch).
Proof.
  split; [reflexivity|].
  apply (only_lookup_writes_fetchedEvent [] (fun _ => Rejected) OpUpdate
           (with_fetchedEvent editing_launch (VObj (draft_of launch))) eq_refl).
Defined.

(** Along a whole run without a lookup, [fetchedEvent] never moves. *)
Lemma run_without_lookup_keeps_fetchedEvent
    (baseUrl : jsstring) (acts : list ((request -> response) * op)) (st : state) :
  forallb (fun a => negb (is_fetch_by_id (snd a))) acts = true ->
  fetchedEvent (run baseUrl acts st) = fetchedEvent st.
Proof.
  revert st; induction acts as [|[api o] acts IH]; intros st H; simpl in *.
  - reflexivity.
  - apply andb_true_iff in H as [Ho Hacts].
    rewrite IH by exact Hacts.
    unfold step; apply preserves_exec, program_preserves_fetchedEvent.
    apply negb_true_iff; exact Ho.
Qed.

(** ** Delete *)

Lemma handleDeleteEvent_preserves_event
    (baseUrl : jsstring) (api : request -> response) (id : value) :
  preserves event (handleDeleteEvent baseUrl api id).
Proof. unfold handleDeleteEvent, deleteEventApi, setMessage; frame. Qed.

Lemma handleDeleteEvent_preserves_editMode
    (baseUrl : jsstring) (api : request -> response) (id : value) :
  preserves editMode (handleDeleteEvent baseUrl api id).
Proof. unfold handleDeleteEvent, deleteEventApi, setMessage; frame. Qed.

(** C9.  [handleDeleteEvent] leaves the draft and [editMode] as they were,
    whether the DELETE and the list fetch after it resolve or are rejected.
    In particular, after Edit on a row and Delete on the same row the form
    is still in edit mode and still holds that row. *)
Theorem delete_keeps_form
    (baseUrl : jsstring) (api api' : request -> response)
    (id : value) (e : obj) (st : state) :
  (event (exec (handleDeleteEvent baseUrl api id) st) = event st /\
   editMode (exec (handleDeleteEvent baseUrl api id) st) = editMode st) /\
  (event (step baseUrl api (OpDelete (get e (lit "id")))
            (step baseUrl api' (OpEdit e) st)) = e /\
   editMode (step baseUrl api (OpDelete (get e (lit "id")))
               (step baseUrl api' (OpEdit e) st)) = true).
Proof.
  split; split.
  - apply preserves_exec, handleDeleteEvent_preserves_event.
  - apply preserves_exec, handleDeleteEvent_preserves_editMode.
  - unfold step at 1; cbn [program].
    rewrite (preserves_exec event); [reflexivity|].
    apply handleDeleteEvent_preserves_event.
  - unfold step at 1; cbn [program].
    rewrite (preserves_exec editMode); [reflexivity|].
    apply handleDeleteEvent_preserves_editMode.
Qed.

Lemma delete_keeps_form_on_launch :
  event (step [] (fun _ => Resolved (VArr [])) (OpDelete (VStr (lit "1")))
           editing_launch) = draft_of launch /\
  editMode (step [] (fun _ => Resolved (VArr [])) (OpDelete (VStr (lit "1")))
              editing_launch) = true.
Proof. split; reflexivity. Qed.

(** ** The mode machine *)

(** An accepted create or update ends in the list fetch run on the reset
    form. *)
Lemma exec_handleAddEvent_resolved
    (baseUrl : jsstring) (api : request -> response) (st : state) (d : value) :
  result (validateForm st) = true ->
  api (mkRequest POST (baseUrl ++ lit "/add") (Some (VObj (event st)))) = Resolved d ->
  exec (handleAddEvent baseUrl api st) st =
  exec (fetchAllEvents baseUrl api)
       (with_editMode (with_event (with_message st msg_added) emptyEvent) false).
Proof.
  intros V R; apply validateForm_passed in V.
  unfold handleAddEvent, addEventApi, fetchAllEvents, resetForm, detach, exec,
    effects, bind, await.
  rewrite V; cbn [result now later ret negb]; rewrite R.
  cbn [result now later app upto_request is_request emit setMessage setEvent
         setEditMode fold_left apply].
  rewrite !app_nil_r; reflexivity.
Qed.

Lemma exec_handleUpdateEvent_resolved
    (baseUrl : jsstring) (api : request -> response) (st : state) (d : value) :
  result (validateForm st) = true ->
  api (mkRequest PUT (baseUrl ++ lit "/update") (Some (VObj (event st)))) = Resolved d ->
  exec (handleUpdateEvent baseUrl api st) st =
  exec (fetchAllEvents baseUrl api)
       (with_editMode (with_event (with_message st msg_updated) emptyEvent) false).
Proof.
  intros V R; apply validateForm_passed in V.
  unfold handleUpdateEvent, updateEventApi, fetchAllEvents, resetForm, detach,
    exec, effects, bind, await.
  rewrite V; cbn [result now later ret negb]; rewrite R.
  cbn [result now later app upto_request is_request emit setMessage setEvent
         setEditMode fold_left apply].
  rewrite !app_nil_r; reflexivity.
Qed.

Lemma fetchAllEvents_keeps_form
    (baseUrl : jsstring) (api : request -> response) (st : state) :
  event (exec (fetchAllEvents baseUrl api) st) = event st /\
  editMode (exec (fetchAllEvents baseUrl api) st) = editMode st.
Proof.
  split; apply preserves_exec, preserves_fetchAllEvents; intros ? ?; reflexivity.
Qed.

(** A create or an update that did not go through leaves [editMode] alone. *)
Lemma failed_submit_keeps_editMode
    (baseUrl : jsstring) (api : request -> response) (st : state) :
  (label_of baseUrl api OpAdd st = Other ->
   editMode (exec (handleAddEvent baseUrl api st) st) = editMode st) /\
  (label_of baseUrl api OpUpdate st = Other ->
   editMode (exec (handleUpdateEvent baseUrl api st) st) = editMode st).
Proof.
  unfold label_of, handleAddEvent, handleUpdateEvent, addEventApi, updateEventApi,
    exec, effects, bind, await.
  destruct (validateForm_shape st) as [E | (key & _ & _ & E)]; rewrite E;
    cbn [result now later ret negb andb]; [|split; reflexivity].
  split.
  - destruct (api (mkRequest POST _ _)); [discriminate | reflexivity].
  - destruct (api (mkRequest PUT _ _)); [discriminate | reflexivity].
Qed.

(** Every operation but Edit, Reset, Add and Update leaves [editMode]
    alone. *)
Lemma quiet_op_preserves_editMode
    (baseUrl : jsstring) (api : request -> response) (s : state) (o : op) :
  match o with
  | OpAdd | OpUpdate | OpEdit _ | OpReset => True
  | _ => preserves editMode (program baseUrl api s o)
  end.
Proof.
  destruct o; try exact I; cbn [program];
    unfold mount, handleChange, setIdToFetch, validateForm, handleDeleteEvent,
      handleFetchById, deleteEventApi, fetchEventByIdApi, setEvent, setMessage,
      setFetchedEvent;
    frame.
Qed.

(** One operation moves [editMode] as the mode machine moves the mode. *)
Lemma step_mode
    (baseUrl : jsstring) (api : request -> response) (o : op) (st : state) :
  mode_of (step baseUrl api o st)
  = mode_step (mode_of st) (label_of baseUrl api o st).
Proof.
  unfold mode_of.
  pose proof (quiet_op_preserves_editMode baseUrl api st o) as Q.
  destruct o;
    try (unfold step; rewrite (preserves_exec editMode _ _ Q); reflexivity);
    try reflexivity.
  - (* Add *)
    destruct (failed_submit_keeps_editMode baseUrl api st) as [Fa _].
    unfold step; cbn [program].
    unfold label_of in *.
    destruct (result (validateForm st)) eqn:V;
      [|rewrite (Fa eq_refl); reflexivity].
    destruct (api (mkRequest POST _ _)) as [d|] eqn:R;
      [|rewrite (Fa eq_refl); reflexivity].
    rewrite (exec_handleAddEvent_resolved _ _ _ d V R).
    rewrite (proj2 (fetchAllEvents_keeps_form _ _ _)); reflexivity.
  - (* Update *)
    destruct (failed_submit_keeps_editMode baseUrl api st) as [_ Fu].
    unfold step; cbn [program].
    unfold label_of in *.
    destruct (result (validateForm st)) eqn:V;
      [|rewrite (Fu eq_refl); reflexivity].
    destruct (api (mkRequest PUT _ _)) as [d|] eqn:R;
      [|rewrite (Fu eq_refl); reflexivity].
    rewrite (exec_handleUpdateEvent_resolved _ _ _ d V R).
    rewrite (proj2 (fetchAllEvents_keeps_form _ _ _)); reflexivity.
Qed.

(** C6.  Along every sequence of operations, with any backend answers,
    [editMode] is what the specification's mode machine says: Edit after
    [handleEdit], Create after [resetForm] and after an accepted create or
    update, unchanged by everything else.  [handleEdit] makes the draft the
    selected row; [resetForm], an accepted update and an accepted create
    each leave the all-empty draft, whatever the state before. *)
Theorem mode_follows_state_machine (baseUrl : jsstring) :
  (forall acts st,
     mode_of (run baseUrl acts st) = mode_run baseUrl acts st (mode_of st)) /\
  (forall api st e,
     editMode (step baseUrl api (OpEdit e) st) = true /\
     event (step baseUrl api (OpEdit e) st) = e) /\
  (forall api st,
     editMode (step baseUrl api OpReset st) = false /\
     event (step baseUrl api OpReset st) = emptyEvent) /\
  (forall api st d,
     result (validateForm st) = true ->
     api (mkRequest PUT (baseUrl ++ lit "/update") (Some (VObj (event st))))
       = Resolved d ->
     editMode (step baseUrl api OpUpdate st) = false /\
     event (step baseUrl api OpUpdate st) = emptyEvent) /\
  (forall api st d,
     result (validateForm st) = true ->
     api (mkRequest POST (baseUrl ++ lit "/add") (Some (VObj (event st))))
       = Resolved d ->
     editMode (step baseUrl api OpAdd st) = false /\
     event (step baseUrl api OpAdd st) = emptyEvent).
Proof.
  split; [|split; [|split; [|split]]].
  - induction acts as [|[api o] acts IH]; intros st; simpl; [reflexivity|].
    rewrite IH, step_mode; reflexivity.
  - intros api st e; split; reflexivity.
  - intros api st; split; reflexivity.
  - intros api st d V R; unfold step; cbn [program].
    rewrite (exec_handleUpdateEvent_resolved _ _ _ d V R).
    destruct (fetchAllEvents_keeps_form baseUrl api
                (with_editMode (with_event (with_message st msg_updated) emptyEvent)
                   false)) as [He Hm].
    rewrite He, Hm; split; reflexivity.
  - intros api st d V R; unfold step; cbn [program].
    rewrite (exec_handleAddEvent_resolved _ _ _ d V R).
    destruct (fetchAllEvents_keeps_form baseUrl api
                (with_editMode (with_event (with_message st msg_added) emptyEvent)
                   false)) as [He Hm].
    rewrite He, Hm; split; reflexivity.
Qed.

Lemma mode_follows_state_machine_witness :
  (result (validateForm editing_launch) = true /\
   editMode (step [] (fun _ => Resolved VNull) OpUpdate editing_launch) = false /\
   event (step [] (fun _ => Resolved VNull) OpUpdate editing_launch) = emptyEvent) /\
  (editMode (step [] (fun _ => Resolved VNull) OpAdd editing_launch) = false /\
   event (step [] (fun _ => Resolved VNull) OpAdd editing_launch) = emptyEvent) /\
  mode_of (run [] [ (lists_reordered_row, OpMount);
                    (lists_reordered_row, OpEdit (draft_of launch));
                    (fun _ => Rejected, OpUpdate);
                    (fun _ => Resolved VNull, OpUpdate) ] initial)
  = mode_run [] [ (lists_reordered_row, OpMount);
                  (lists_reordered_row, OpEdit (draft_of launch));
                  (fun _ => Rejected, OpUpdate);
                  (fun _ => Resolved VNull, OpUpdate) ] initial CreateMode.
Proof.
  split; [split; [reflexivity|] | split].
  - apply (proj1 (proj2 (proj2 (proj2 (mode_follows_state_machine []))))
             (fun _ => Resolved VNull) editing_launch VNull eq_refl eq_refl).
  - apply (proj2 (proj2 (proj2 (proj2 (mode_follows_state_machine []))))
             (fun _ => Resolved VNull) editing_launch VNull eq_refl eq_refl).
  - apply (proj1 (mode_follows_state_machine [])).
Defined.

(* ===================================================================== *)
(** * Further properties of the handlers *)
(* ===================================================================== *)

(** ** Keystrokes in the form *)







(** ** Validation of any draft *)

Lemma find_first {A} (f : A -> bool) (l : list A) (x : A) :
  find f l = Some x ->
  exists pre post, l = pre ++ x :: post /\
                   (forall y, In y pre -> f y = false) /\ f x = true.
Proof.
  induction l as [|a l IH]; simpl; [discriminate|].
  destruct (f a) eqn:E.
  - intros [= <-]; exists [], l; repeat split; auto.
    intros y [].
  - intros H; destruct (IH H) as (pre & post & -> & Hpre & Hx).
    exists (a :: pre), post; repeat split; auto.
    intros y [<-|Hy]; auto.
Qed.

(** X2.  [validateForm] on any draft, a table row loaded by Edit included:
    it succeeds, setting nothing, exactly when no property the draft has is
    blank; otherwise it sets one message, naming the first blank property in
    the draft's own key order.  A form field the draft lacks is not looked at. *)
Theorem validateForm_first_blank_property (st : state) :
  (result (validateForm st) = true <->
   forall k, In k (keys (event st)) -> blank (get (event st) k) = false) /\
  (result (validateForm st) = true -> effects (validateForm st) = []) /\
  (result (validateForm st) = false ->
   exists pre key post,
     keys (event st) = pre ++ key :: post /\
     (forall k, In k pre -> blank (get (event st) k) = false) /\
     blank (get (event st) key) = true /\
     effects (validateForm st) = [SetMessage (msg_fill_out key)]).
Proof.
  unfold validateForm; rewrite validate_loop_find.
  destruct (find _ (keys (event st))) as [key|] eqn:F.
  - split; [|split].
    + split; [discriminate|].
      intros H; apply find_some in F as [Hin Hb].
      rewrite (H key Hin) in Hb; discriminate.
    + discriminate.
    + intros _; destruct (find_first _ _ _ F) as (pre & post & E & Hpre & Hk).
      exists pre, key, post; repeat split; auto.
  - split; [|split].
    + split; [|reflexivity].
      intros _ k Hin; apply (find_none _ _ F k Hin).
    + reflexivity.
    + discriminate.
Qed.

(** ** What counts as blank *)

Lemma trimStart_nil (s : jsstring) :
  trimStart s = [] <-> forallb is_ws s = true.
Proof.
  induction s as [|c s IH]; simpl; [tauto|].
  destruct (is_ws c); simpl; [exact IH | split; discriminate].
Qed.

Lemma forallb_trimStart (s : jsstring) :
  forallb is_ws (trimStart s) = forallb is_ws s.
Proof.
  induction s as [|c s IH]; simpl; [reflexivity|].
  destruct (is_ws c) eqn:E; simpl; [exact IH | rewrite E; reflexivity].
Qed.

Lemma forallb_rev {A} (f : A -> bool) (l : list A) :
  forallb f (rev l) = forallb f l.
Proof.
  induction l as [|a l IH]; simpl; [reflexivity|].
  rewrite forallb_app, IH; simpl; rewrite andb_true_r, andb_comm; reflexivity.
Qed.

Lemma rev_nil_iff {A} (l : list A) : rev l = [] <-> l = [].
Proof.
  split; [|intros ->; reflexivity].
  intros H; rewrite <- (rev_involutive l), H; reflexivity.
Qed.

(** Trimming leaves nothing exactly of a string of whitespace. *)
Lemma trim_nil_iff (s : jsstring) : trim s = [] <-> forallb is_ws s = true.
Proof.
  unfold trim, trimEnd.
  rewrite <- (forallb_trimStart s), <- (forallb_rev is_ws (trimStart s)).
  split.
  - intros H; apply trimStart_nil, rev_nil_iff; exact H.
  - intros H; apply rev_nil_iff, trimStart_nil; exact H.
Qed.

(** X3.  A string field is blank for [validateForm] exactly when every one
    of its code units is whitespace, the empty string included: one
    character that is not whitespace, wherever it stands, makes the field
    pass. *)
Theorem blank_string_is_whitespace (x : jsstring) :
  blank (VStr x) = forallb is_ws x /\
  (forall a c b, x = a ++ c :: b -> is_ws c = false -> blank (VStr x) = false).
Proof.
  assert (E : blank (VStr x) = forallb is_ws x).
  { rewrite blank_str.
    destruct (forallb is_ws x) eqn:F.
    - apply str_eqb_nil, trim_nil_iff; exact F.
    - destruct (str_eqb (trim x) []) eqn:T; [|reflexivity].
      apply str_eqb_nil, trim_nil_iff in T; congruence. }
  split; [exact E|].
  intros a c b -> Hc; rewrite E, forallb_app; simpl.
  rewrite Hc, andb_false_r; reflexivity.
Qed.

Lemma digits_not_ws (u : Decimal.uint) :
  u <> Decimal.Nil -> forallb is_ws (digits u) = false.
Proof. destruct u; intros H; try reflexivity; congruence. Qed.

Lemma number_to_string_not_ws (z : Z) :
  forallb is_ws (number_to_string z) = false.
Proof.
  unfold number_to_string.
  destruct (z <? 0)%Z; [reflexivity|].
  apply digits_not_ws.
  destruct (Z.abs_N z) as [|p]; simpl; [discriminate|].
  apply Unsigned.to_uint_nonnil.
Qed.

(** X4.  A numeric field is blank for [validateForm] exactly when it is 0:
    a row whose id is the number 0, once loaded by Edit, cannot be sent,
    [handleUpdateEvent] and [handleAddEvent] stop at the validation message. *)
Theorem blank_number_is_zero (z : Z) :
  blank (VNum z) = (z =? 0)%Z /\
  (forall baseUrl api st k,
     z = 0%Z -> get (event st) k = VNum z ->
     requests (handleUpdateEvent baseUrl api st) = [] /\
     requests (handleAddEvent baseUrl api st) = []).
Proof.
  assert (E : blank (VNum z) = (z =? 0)%Z).
  { unfold blank; cbn [truthy to_string].
    destruct (str_eqb (trim (number_to_string z)) []) eqn:T.
    - apply str_eqb_nil, trim_nil_iff in T.
      rewrite number_to_string_not_ws in T; discriminate.
    - rewrite negb_involutive, orb_false_r; reflexivity. }
  split; [exact E|].
  intros baseUrl api st k Hz Hk.
  destruct (validateForm_blank st k) as [key V].
  - rewrite Hk; discriminate.
  - rewrite Hk, E, Hz; reflexivity.
  - unfold handleUpdateEvent, handleAddEvent, requests, effects.
    rewrite V; split; reflexivity.
Qed.

Lemma blank_number_is_zero_witness :
  get (event (with_event initial
                [(lit "id", VNum 0); (lit "name", VStr (lit "Launch"))]))
      (lit "id") = VNum 0 /\
  requests (handleUpdateEvent [] (fun _ => Resolved VNull)
              (with_event initial
                 [(lit "id", VNum 0); (lit "name", VStr (lit "Launch"))])) = [].
Proof.
  split; [reflexivity|].
  apply (proj2 (blank_number_is_zero 0) [] (fun _ => Resolved VNull)
           (with_event initial
              [(lit "id", VNum 0); (lit "name", VStr (lit "Launch"))])
           (lit "id") eq_refl eq_refl).
Defined.

(** ** What is sent *)

Lemma requests_passed_add
    (baseUrl : jsstring) (api : request -> response) (st : state) :
  result (validateForm st) = true ->
  requests (handleAddEvent baseUrl api st) =
  mkRequest POST (baseUrl ++ lit "/add") (Some (VObj (event st))) ::
  match api (mkRequest POST (baseUrl ++ lit "/add") (Some (VObj (event st)))) with
  | Resolved _ => [mkRequest GET (baseUrl ++ lit "/all") None]
  | Rejected => []
  end.
Proof.
  intros V; apply validateForm_passed in V.
  unfold handleAddEvent, addEventApi, fetchAllEvents, resetForm, detach,
    requests, effects, bind, await.
  rewrite V; cbn [result now later ret negb].
  destruct (api (mkRequest POST _ _)) as [d|]; [|reflexivity].
  cbn [result now later app upto_request is_request emit setMessage setEvent
         setEditMode flat_map].
  destruct (api (mkRequest GET _ _)) as [data|]; [|reflexivity].
  destruct (isArray data); [reflexivity|].
  destruct (truthy data && isArray (prop data (lit "data"))); reflexivity.
Qed.

Lemma requests_passed_update
    (baseUrl : jsstring) (api : request -> response) (st : state) :
  result (validateForm st) = true ->
  requests (handleUpdateEvent baseUrl api st) =
  mkRequest PUT (baseUrl ++ lit "/update") (Some (VObj (event st))) ::
  match api (mkRequest PUT (baseUrl ++ lit "/update") (Some (VObj (event st)))) with
  | Resolved _ => [mkRequest GET (baseUrl ++ lit "/all") None]
  | Rejected => []
  end.
Proof.
  intros V; apply validateForm_passed in V.
  unfold handleUpdateEvent, updateEventApi, fetchAllEvents, resetForm, detach,
    requests, effects, bind, await.
  rewrite V; cbn [result now later ret negb].
  destruct (api (mkRequest PUT _ _)) as [d|]; [|reflexivity].
  cbn [result now later app upto_request is_request emit setMessage setEvent
         setEditMode flat_map].
  destruct (api (mkRequest GET _ _)) as [data|]; [|reflexivity].
  destruct (isArray data); [reflexivity|].
  destruct (truthy data && isArray (prop data (lit "data"))); reflexivity.
Qed.

Lemma requests_failed_validation
    (baseUrl : jsstring) (api : request -> response) (st : state) :
  result (validateForm st) = false ->
  requests (handleAddEvent baseUrl api st) = [] /\
  requests (handleUpdateEvent baseUrl api st) = [].
Proof.
  intros V.
  destruct (validateForm_shape st) as [E | (key & _ & _ & E)];
    [rewrite E in V; discriminate|].
  unfold handleAddEvent, handleUpdateEvent, requests, effects.
  rewrite E; split; reflexivity.
Qed.

Lemma validateForm_passed_no_blank (st : state) :
  result (validateForm st) = true ->
  forall k, In k (keys (event st)) -> blank (get (event st) k) = false.
Proof.
  unfold validateForm; rewrite validate_loop_find.
  destruct (find _ (keys (event st))) eqn:F; [discriminate|].
  intros _ k Hin; apply (find_none _ _ F k Hin).
Qed.

(** X5.  Whenever the Add or the Update button sends anything, what it
    sends first is the draft itself, as the body of POST /add or of
    PUT /update, and no property that draft has is blank. *)
Theorem submitted_draft_has_no_blank_property
    (baseUrl : jsstring) (api : request -> response) (st : state) :
  (requests (handleAddEvent baseUrl api st) <> [] ->
   (exists rest,
      requests (handleAddEvent baseUrl api st) =
      mkRequest POST (baseUrl ++ lit "/add") (Some (VObj (event st))) :: rest) /\
   forall k, In k (keys (event st)) -> blank (get (event st) k) = false) /\
  (requests (handleUpdateEvent baseUrl api st) <> [] ->
   (exists rest,
      requests (handleUpdateEvent baseUrl api st) =
      mkRequest PUT (baseUrl ++ lit "/update") (Some (VObj (event st))) :: rest) /\
   forall k, In k (keys (event st)) -> blank (get (event st) k) = false).
Proof.
  destruct (result (validateForm st)) eqn:V.
  - split; intros _; (split; [|apply validateForm_passed_no_blank, V]).
    + rewrite (requests_passed_add baseUrl api st V); eauto.
    + rewrite (requests_passed_update baseUrl api st V); eauto.
  - destruct (requests_failed_validation baseUrl api st V) as [Ea Eu].
    split; intros H; contradiction.
Qed.

Lemma submitted_draft_has_no_blank_property_witness :
  requests (handleUpdateEvent [] (fun _ => Rejected) editing_launch) <> [] /\
  forall k, In k (keys (event editing_launch)) ->
            blank (get (event editing_launch) k) = false.
Proof.
  assert (H : requests (handleUpdateEvent [] (fun _ => Rejected) editing_launch)
              <> []) by discriminate.
  split; [exact H|].
  apply (proj2 (submitted_draft_has_no_blank_property [] (fun _ => Rejected)
                  editing_launch) H).
Defined.

(** X6.  An accepted create or update sends two requests, the POST or PUT
    and then GET /all, and ends as the list fetch on the reset form does:
    when GET /all resolves the success message stays, when it is rejected
    the fetch-failure message replaces the success message and the table is
    emptied, although the record was stored. *)
Theorem accepted_submit_then_refresh
    (baseUrl : jsstring) (api : request -> response) (st : state) (d : value) :
  result (validateForm st) = true ->
  (api (mkRequest POST (baseUrl ++ lit "/add") (Some (VObj (event st)))) = Resolved d ->
   requests (handleAddEvent baseUrl api st) =
     [ mkRequest POST (baseUrl ++ lit "/add") (Some (VObj (event st)));
       mkRequest GET (baseUrl ++ lit "/all") None ] /\
   (forall data, api (mkRequest GET (baseUrl ++ lit "/all") None) = Resolved data ->
      message (exec (handleAddEvent baseUrl api st) st) = msg_added) /\
   (api (mkRequest GET (baseUrl ++ lit "/all") None) = Rejected ->
      message (exec (handleAddEvent baseUrl api st) st) = msg_fetch_failed /\
      events (exec (handleAddEvent baseUrl api st) st) = VArr [])) /\
  (api (mkRequest PUT (baseUrl ++ lit "/update") (Some (VObj (event st)))) = Resolved d ->
   requests (handleUpdateEvent baseUrl api st) =
     [ mkRequest PUT (baseUrl ++ lit "/update") (Some (VObj (event st)));
       mkRequest GET (baseUrl ++ lit "/all") None ] /\
   (forall data, api (mkRequest GET (baseUrl ++ lit "/all") None) = Resolved data ->
      message (exec (handleUpdateEvent baseUrl api st) st) = msg_updated) /\
   (api (mkRequest GET (baseUrl ++ lit "/all") None) = Rejected ->
      message (exec (handleUpdateEvent baseUrl api st) st) = msg_fetch_failed /\
      events (exec (handleUpdateEvent baseUrl api st) st) = VArr [])).
Proof.
  intros V; split; intros R.
  - rewrite (requests_passed_add baseUrl api st V), R.
    rewrite (exec_handleAddEvent_resolved baseUrl api st d V R), exec_fetchAllEvents.
    split; [reflexivity|]. split.
    + intros data ->.
      destruct (isArray data); [reflexivity|].
      destruct (truthy data && isArray (prop data (lit "data"))); reflexivity.
    + intros ->; split; reflexivity.
  - rewrite (requests_passed_update baseUrl api st V), R.
    rewrite (exec_handleUpdateEvent_resolved baseUrl api st d V R), exec_fetchAllEvents.
    split; [reflexivity|]. split.
    + intros data ->.
      destruct (isArray data); [reflexivity|].
      destruct (truthy data && isArray (prop data (lit "data"))); reflexivity.
    + intros ->; split; reflexivity.
Qed.

(** The backend that stores but then fails to list. *)
Lemma accepted_submit_then_refresh_witness :
  result (validateForm editing_launch) = true /\
  message (exec (handleUpdateEvent []
                   (fun r => match method r with
                             | GET => Rejected
                             | _ => Resolved VNull
                             end) editing_launch) editing_launch)
    = msg_fetch_failed /\
  events (exec (handleUpdateEvent []
                  (fun r => match method r with
                            | GET => Rejected
                            | _ => Resolved VNull
                            end) editing_launch) editing_launch)
    = VArr [].
Proof.
  split; [reflexivity|].
  apply (proj2 (proj2 (proj2 (accepted_submit_then_refresh []
           (fun r => match method r with
                     | GET => Rejected
                     | _ => Resolved VNull
                     end) editing_launch VNull eq_refl) eq_refl)) eq_refl).
Defined.


Lemma delete_sends_first
    (baseUrl : jsstring) (api : request -> response) (id : value) :
  exists rest,
    requests (handleDeleteEvent baseUrl api id) =
    mkRequest DELETE (baseUrl ++ lit "/delete/" ++ to_string id) None :: rest.
Proof.
  unfold handleDeleteEvent, deleteEventApi, fetchAllEvents, detach, requests,
    effects, bind, await; cbn [result now later].
  destruct (api (mkRequest DELETE _ _)) as [d|]; [|eexists; reflexivity].
  cbn [result now later app upto_request is_request emit setMessage flat_map].
  eexists; reflexivity.
Qed.

(** ** What the lookup shows *)

(** X8.  After a lookup with a non-empty id that the backend resolves, the
    "Event Found" panel shows the body exactly when the body is truthy, and
    no banner is shown: a resolved lookup with a body such as [null] or the
    empty string leaves the user with neither the panel nor a message.  After a rejected lookup the panel is hidden and the not-found
    banner is shown. *)
Theorem lookup_display
    (baseUrl : jsstring) (api : request -> response) (st : state) :
  idToFetch st <> [] ->
  let st' := step baseUrl api OpFetchById st in
  let get_it := mkRequest GET (baseUrl ++ lit "/get/" ++ idToFetch st) None in
  (forall data, api get_it = Resolved data ->
     banner st' = None /\
     lookup_panel st' = (if truthy data then Some data else None)) /\
  (api get_it = Rejected ->
     lookup_panel st' = None /\
     banner st' = Some (severity msg_not_found, msg_not_found)).
Proof.
  intros Hid; cbv zeta.
  unfold step, program, handleFetchById, fetchEventByIdApi, exec, effects, bind,
    await.
  destruct (idToFetch st) as [|c i] eqn:E; [congruence|].
  cbn [truthy str_eqb negb result now later].
  split.
  - intros data ->; split; reflexivity.
  - intros ->; split; reflexivity.
Qed.

Lemma lookup_display_witness :
  idToFetch (with_idToFetch initial (lit "9")) <> [] /\
  banner (step [] (fun _ => Resolved (VStr [])) OpFetchById
            (with_idToFetch initial (lit "9"))) = None /\
  lookup_panel (step [] (fun _ => Resolved (VStr [])) OpFetchById
                  (with_idToFetch initial (lit "9"))) = None.
Proof.
  assert (H : idToFetch (with_idToFetch initial (lit "9")) <> []) by discriminate.
  split; [exact H|].
  apply (proj1 (lookup_display [] (fun _ => Resolved (VStr []))
                  (with_idToFetch initial (lit "9")) H) (VStr []) eq_refl).
Defined.

(** ** Which operations reach the backend *)

Lemma requests_validate_loop (s : state) (ks : list jsstring) :
  requests (validate_loop s ks) = [].
Proof.
  rewrite validate_loop_find.
  destruct (find _ ks); reflexivity.
Qed.

(** X9.  An operation sends no request exactly in these cases: it is a
    keystroke, validation, Edit or Cancel, which never send; it is Add or
    Update and validation failed; it is the lookup and the lookup box is
    empty.  The mount effect and Delete always send. *)
Theorem sends_nothing_iff
    (baseUrl : jsstring) (api : request -> response) (st : state) (o : op) :
  requests (program baseUrl api st o) = [] <-> sends_nothing st o = true.
Proof.
  destruct o; cbn [program sends_nothing].
  - (* mount *)
    split; [|discriminate].
    unfold mount, fetchAllEvents, detach, requests, effects, bind, await;
      cbn [result now later upto_request is_request app flat_map].
    discriminate.
  - split; reflexivity.
  - split; reflexivity.
  - split; [reflexivity|]. intros _.
    unfold validateForm, requests, effects, bind.
    pose proof (requests_validate_loop st (keys (event st))) as H.
    unfold requests, effects in H.
    cbn [result now later ret]; rewrite ?app_nil_r; exact H.
  - destruct (result (validateForm st)) eqn:V; cbn [negb].
    + rewrite (requests_passed_add baseUrl api st V); split; discriminate.
    + split; [reflexivity|]. intros _.
      apply (requests_failed_validation baseUrl api st V).
  - destruct (result (validateForm st)) eqn:V; cbn [negb].
    + rewrite (requests_passed_update baseUrl api st V); split; discriminate.
    + split; [reflexivity|]. intros _.
      apply (requests_failed_validation baseUrl api st V).
  - destruct (delete_sends_first baseUrl api id) as [rest E].
    rewrite E; split; discriminate.
  - unfold handleFetchById, fetchEventByIdApi, requests, effects, bind, await.
    destruct (idToFetch st) as [|c i]; cbn [truthy str_eqb negb].
    + split; reflexivity.
    + cbn [result now later]; destruct (api _); split; discriminate.
  - split; reflexivity.
  - split; reflexivity.
Qed.

(** ** Properties of every effect of a handler *)

Section AllEffects.

Context (P : effect -> Prop).

Lemma all_effects_ret {A} (a : A) : all_effects P (ret a).
Proof. constructor. Qed.

Lemma all_effects_emit (e : effect) : P e -> all_effects P (emit e).
Proof. intros H; repeat constructor; exact H. Qed.

Lemma all_effects_await (api : request -> response) (r : request) :
  P (Request r) -> all_effects P (await api r).
Proof. intros H; repeat constructor; exact H. Qed.

Lemma all_effects_bind {A C} (m : M A) (k : A -> M C) :
  all_effects P m -> (forall a, all_effects P (k a)) -> all_effects P (bind m k).
Proof.
  unfold all_effects; intros Hm Hk; specialize (Hk (result m)).
  rewrite effects_bind. unfold effects in *.
  apply Forall_app in Hm as [Hm1 Hm2]; apply Forall_app in Hk as [Hk1 Hk2].
  repeat (apply Forall_app; split); assumption.
Qed.

Lemma all_effects_detach (p : M unit) :
  all_effects P p -> all_effects P (detach p).
Proof. unfold all_effects; rewrite effects_detach; auto. Qed.

Lemma all_effects_validate_loop (s : state) (ks : list jsstring) :
  (forall m, P (SetMessage m)) -> all_effects P (validate_loop s ks).
Proof.
  intros H; rewrite validate_loop_find.
  destruct (find _ ks); repeat constructor; apply H.
Qed.

(** An invariant that each effect with [P] keeps is kept by the handler. *)
Lemma all_effects_exec {A} (Inv : state -> Prop) (m : M A) (st : state) :
  (forall st e, P e -> Inv st -> Inv (apply st e)) ->
  all_effects P m -> Inv st -> Inv (exec m st).
Proof.
  unfold all_effects, exec; generalize (effects m); intros es K H; revert st.
  induction H as [|e es He _ IH]; intros st I; simpl; [exact I|].
  apply IH, (K st e He I).
Qed.

Lemma all_effects_request {A} (m : M A) (r : request) :
  all_effects P m -> In r (requests m) -> P (Request r).
Proof.
  unfold all_effects, requests; intros H Hin.
  apply in_flat_map in Hin as (e & He & Hr).
  rewrite Forall_forall in H; specialize (H e He).
  destruct e; simpl in Hr; try contradiction.
  destruct Hr as [<-|[]]; exact H.
Qed.

End AllEffects.

(** ** Invariants of runs *)

Lemma run_invariant (Inv : state -> Prop) (baseUrl : jsstring) :
  (forall api o st, Inv st -> Inv (step baseUrl api o st)) ->
  forall acts st, Inv st -> Inv (run baseUrl acts st).
Proof.
  intros K acts; induction acts as [|[api o] acts IH]; intros st I; simpl.
  - exact I.
  - apply IH, K, I.
Qed.

Lemma offered_run_invariant (Inv : state -> Prop) (baseUrl : jsstring) :
  (forall api o st, offered st o = true -> Inv st -> Inv (step baseUrl api o st)) ->
  forall acts st, offered_run baseUrl acts st = true -> Inv st ->
                  Inv (run baseUrl acts st).
Proof.
  intros K acts; induction acts as [|[api o] acts IH]; intros st H I; simpl in *.
  - exact I.
  - apply andb_true_iff in H as [Ho Hrest].
    apply IH; [exact Hrest | apply K; assumption].
Qed.

Lemma offered_run_app
    (baseUrl : jsstring) (acts : list ((request -> response) * op))
    (api : request -> response) (o : op) (st : state) :
  offered_run baseUrl (acts ++ [(api, o)]) st = true ->
  offered_run baseUrl acts st = true /\ offered (run baseUrl acts st) o = true.
Proof.
  revert st; induction acts as [|[api' o'] acts IH]; intros st H; simpl in *.
  - rewrite andb_true_r in H; auto.
  - apply andb_true_iff in H as [Ho Hrest].
    destruct (IH _ Hrest) as [H1 H2]; rewrite Ho, H1; auto.
Qed.

(** ** The list is always an array *)

Lemma fetchAllEvents_sets_array (baseUrl : jsstring) (api : request -> response) :
  all_effects sets_array (fetchAllEvents baseUrl api).
Proof.
  unfold fetchAllEvents.
  apply all_effects_bind; [apply all_effects_await; exact I|].
  intros [data|].
  - destruct (isArray data) eqn:E; [apply all_effects_emit; exact E|].
    destruct (truthy data && isArray (prop data (lit "data"))) eqn:F.
    + apply andb_true_iff in F as [_ F]; apply all_effects_emit; exact F.
    + apply all_effects_emit; reflexivity.
  - apply all_effects_bind; [apply all_effects_emit; exact I|].
    intros _; apply all_effects_emit; reflexivity.
Qed.

Ltac effects_ok :=
  repeat first
    [ apply all_effects_ret
    | apply all_effects_await; exact I
    | apply all_effects_emit; exact I
    | apply all_effects_detach
    | apply fetchAllEvents_sets_array
    | apply all_effects_validate_loop; intros ?; exact I
    | apply all_effects_bind; [|intros []; cbn [negb]]
    | match goal with
      | |- all_effects _ (if ?b then _ else _) => destruct b
      end ].

Lemma program_sets_array
    (baseUrl : jsstring) (api : request -> response) (s : state) (o : op) :
  all_effects sets_array (program baseUrl api s o).
Proof.
  destruct o; cbn [program];
    unfold mount, handleChange, setIdToFetch, validateForm, handleAddEvent,
      handleUpdateEvent, handleDeleteEvent, handleFetchById, handleEdit,
      resetForm, addEventApi, updateEventApi, deleteEventApi, fetchEventByIdApi,
      setEvent, setEditMode, setMessage, setFetchedEvent;
    effects_ok.
Qed.

Lemma step_keeps_array
    (baseUrl : jsstring) (api : request -> response) (o : op) (st : state) :
  isArray (events st) = true -> isArray (events (step baseUrl api o st)) = true.
Proof.
  intros H; unfold step.
  apply (all_effects_exec sets_array (fun st => isArray (events st) = true)).
  - intros st0 [] He I; simpl in *; auto.
  - apply program_sets_array.
  - exact H.
Qed.

(** X10.  [events] is an array after every run of operations from a state
    where it is one, the first render's among them, whatever the backend
    answers: every [setEvents] of the component hands over an array.  The
    [!Array.isArray(events)] test of the render never holds. *)
Theorem events_is_always_an_array
    (baseUrl : jsstring) (acts : list ((request -> response) * op)) (st : state) :
  isArray (events st) = true -> isArray (events (run baseUrl acts st)) = true.
Proof.
  apply (run_invariant (fun st => isArray (events st) = true)).
  intros api o st0; apply step_keeps_array.
Qed.

Lemma events_is_always_an_array_witness :
  isArray (events initial) = true /\
  isArray (events (run [] [ (fun _ => Resolved (VStr (lit "oops")), OpMount);
                            (fun _ => Rejected, OpDelete VUndefined) ] initial))
    = true.
Proof.
  split; [reflexivity|].
  apply (events_is_always_an_array []
           [ (fun _ => Resolved (VStr (lit "oops")), OpMount);
             (fun _ => Rejected, OpDelete VUndefined) ] initial eq_refl).
Defined.

(** ** Where every request goes *)

Lemma fetchAllEvents_api_requests
    (baseUrl : jsstring) (api : request -> response) (s : state) :
  all_effects (fun e => match e with
                        | Request r => api_request baseUrl s r
                        | _ => True
                        end) (fetchAllEvents baseUrl api).
Proof.
  unfold fetchAllEvents.
  apply all_effects_bind; [apply all_effects_await; left; reflexivity|].
  intros [data|].
  - destruct (isArray data); [apply all_effects_emit; exact I|].
    destruct (truthy data && isArray (prop data (lit "data")));
      apply all_effects_emit; exact I.
  - apply all_effects_bind; [apply all_effects_emit; exact I|].
    intros _; apply all_effects_emit; exact I.
Qed.

Ltac requests_ok :=
  repeat first
    [ apply all_effects_ret
    | apply all_effects_emit; exact I
    | apply all_effects_detach
    | apply fetchAllEvents_api_requests
    | apply all_effects_validate_loop; intros ?; exact I
    | apply all_effects_await; unfold api_request;
      solve [ auto | right; right; right; left; eexists; reflexivity ]
    | apply all_effects_bind; [|intros []; cbn [negb]]
    | match goal with
      | |- all_effects _ (if ?b then _ else _) => destruct b
      end ].

(** X16.  Every request any operation sends is one of the five of the API,
    to a URL under [baseUrl]: GET /all, POST /add or PUT /update with the
    draft of the current render as body, DELETE /delete/<id>, or
    GET /get/<the lookup box's content>.  The draft is never sent anywhere
    else, and nothing else is ever sent as a body. *)
Theorem every_request_is_of_the_api
    (baseUrl : jsstring) (api : request -> response) (st : state) (o : op)
    (r : request) :
  In r (requests (program baseUrl api st o)) -> api_request baseUrl st r.
Proof.
  intros Hin.
  refine (all_effects_request
            (fun e => match e with
                      | Request r => api_request baseUrl st r
                      | _ => True
                      end) (program baseUrl api st o) r _ Hin).
  clear Hin r.
  destruct o; cbn [program];
    unfold mount, handleChange, setIdToFetch, validateForm, handleAddEvent,
      handleUpdateEvent, handleDeleteEvent, handleFetchById, handleEdit,
      resetForm, addEventApi, updateEventApi, deleteEventApi, fetchEventByIdApi,
      setEvent, setEditMode, setMessage, setFetchedEvent;
    requests_ok.
Qed.

Lemma every_request_is_of_the_api_witness :
  In (mkRequest GET (lit "/all") None)
     (requests (program [] (fun _ => Resolved VNull) editing_launch OpUpdate)) /\
  api_request [] editing_launch (mkRequest GET (lit "/all") None).
Proof.
  assert (H : In (mkRequest GET (lit "/all") None)
                (requests (program [] (fun _ => Resolved VNull) editing_launch
                             OpUpdate))) by (right; left; reflexivity).
  split; [exact H|].
  apply (every_request_is_of_the_api [] (fun _ => Resolved VNull) editing_launch
           OpUpdate (mkRequest GET (lit "/all") None) H).
Defined.

(** ** The draft in create mode *)

(** Every operation but a keystroke in the form, Add, Update, Edit and
    Cancel leaves the draft alone. *)
Lemma quiet_op_preserves_event
    (baseUrl : jsstring) (api : request -> response) (s : state) (o : op) :
  match o with
  | OpChange _ _ | OpAdd | OpUpdate | OpEdit _ | OpReset => True
  | _ => preserves event (program baseUrl api s o)
  end.
Proof.
  destruct o; try exact I; cbn [program];
    unfold mount, setIdToFetch, validateForm, handleDeleteEvent,
      handleFetchById, deleteEventApi, fetchEventByIdApi, setMessage,
      setFetchedEvent;
    frame.
Qed.

(** A create or an update either resets the form or leaves it as it was. *)
Lemma submit_resets_or_keeps_form
    (baseUrl : jsstring) (api : request -> response) (st : state) :
  ((event (exec (handleAddEvent baseUrl api st) st) = emptyEvent /\
    editMode (exec (handleAddEvent baseUrl api st) st) = false) \/
   (event (exec (handleAddEvent baseUrl api st) st) = event st /\
    editMode (exec (handleAddEvent baseUrl api st) st) = editMode st)) /\
  ((event (exec (handleUpdateEvent baseUrl api st) st) = emptyEvent /\
    editMode (exec (handleUpdateEvent baseUrl api st) st) = false) \/
   (event (exec (handleUpdateEvent baseUrl api st) st) = event st /\
    editMode (exec (handleUpdateEvent baseUrl api st) st) = editMode st)).
Proof.
  destruct (result (validateForm st)) eqn:V.
  - split.
    + destruct (api (mkRequest POST (baseUrl ++ lit "/add") (Some (VObj (event st)))))
        as [d|] eqn:R.
      * left; rewrite (exec_handleAddEvent_resolved baseUrl api st d V R).
        apply fetchAllEvents_keeps_form.
      * right; apply validateForm_passed in V.
        unfold handleAddEvent, addEventApi, exec, effects, bind, await.
        rewrite V; cbn [result now later ret negb]; rewrite R.
        split; reflexivity.
    + destruct (api (mkRequest PUT (baseUrl ++ lit "/update") (Some (VObj (event st)))))
        as [d|] eqn:R.
      * left; rewrite (exec_handleUpdateEvent_resolved baseUrl api st d V R).
        apply fetchAllEvents_keeps_form.
      * right; apply validateForm_passed in V.
        unfold handleUpdateEvent, updateEventApi, exec, effects, bind, await.
        rewrite V; cbn [result now later ret negb]; rewrite R.
        split; reflexivity.
  - destruct (validateForm_shape st) as [E | (key & _ & _ & E)];
      [rewrite E in V; discriminate|].
    unfold handleAddEvent, handleUpdateEvent, exec, effects.
    rewrite E; split; right; split; reflexivity.
Qed.

Lemma input_name_in_canonical (name : jsstring) :
  existsb (str_eqb name) input_names = true -> In name canonical.
Proof.
  intros H; apply existsb_exists in H as (x & Hin & E).
  apply str_eqb_eq in E; subst x; exact Hin.
Qed.

Lemma step_keeps_create_draft
    (baseUrl : jsstring) (api : request -> response) (o : op) (st : state) :
  offered st o = true ->
  create_draft_in_form_order st ->
  create_draft_in_form_order (step baseUrl api o st).
Proof.
  intros Hoff J.
  pose proof (quiet_op_preserves_event baseUrl api st o) as Qe.
  pose proof (quiet_op_preserves_editMode baseUrl api st o) as Qm.
  assert (Quiet : preserves event (program baseUrl api st o) ->
                  preserves editMode (program baseUrl api st o) ->
                  create_draft_in_form_order (step baseUrl api o st)).
  { intros Pe Pm Hc; unfold step in *.
    rewrite (preserves_exec editMode _ _ Pm) in Hc.
    rewrite (preserves_exec event _ _ Pe); apply J, Hc. }
  assert (Empty : event (step baseUrl api o st) = emptyEvent ->
                  create_draft_in_form_order (step baseUrl api o st)).
  { intros E _; exists (mkEvent [] [] [] [] []); exact E. }
  destruct o; try (apply Quiet; assumption).
  - (* a keystroke *)
    intros Hc; unfold step in *; cbn [program] in *.
    rewrite (preserves_exec editMode _ _ Qm) in Hc.
    destruct (J Hc) as [ev E].
    apply (handleChange_draft_in_form_order st ev name val E).
    apply input_name_in_canonical, Hoff.
  - (* Add *)
    destruct (proj1 (submit_resets_or_keeps_form baseUrl api st))
      as [[E _] | [E M]]; [apply Empty, E|].
    intros Hc; unfold step in *; cbn [program] in *.
    rewrite E; apply J; rewrite <- M; exact Hc.
  - (* Update *)
    destruct (proj2 (submit_resets_or_keeps_form baseUrl api st))
      as [[E _] | [E M]]; [apply Empty, E|].
    intros Hc; unfold step in *; cbn [program] in *.
    rewrite E; apply J; rewrite <- M; exact Hc.
  - (* Edit *)
    intros Hc; discriminate Hc.
  - (* Cancel *)
    apply Empty; reflexivity.
Qed.

Lemma initial_create_draft : create_draft_in_form_order initial.
Proof. intros _; exists (mkEvent [] [] [] [] []); reflexivity. Qed.

(** X11.  Along every run from the first render that uses only what the
    render offers (keystrokes in the five inputs, Add in create mode, Update
    and Cancel in edit mode, anything else at any time), the draft in create
    mode holds exactly the five form fields as strings, in form order: only
    Edit puts another object in the form, and the form leaves edit mode only
    through a reset. *)
Theorem create_mode_draft_is_form_shaped
    (baseUrl : jsstring) (acts : list ((request -> response) * op)) :
  offered_run baseUrl acts initial = true ->
  editMode (run baseUrl acts initial) = false ->
  exists ev, event (run baseUrl acts initial) = draft_of ev.
Proof.
  intros H.
  apply (offered_run_invariant create_draft_in_form_order baseUrl
           (step_keeps_create_draft baseUrl) acts initial H initial_create_draft).
Qed.

Lemma create_mode_draft_is_form_shaped_witness :
  offered_run []
    [ (lists_reordered_row, OpMount);
      (lists_reordered_row, OpEdit reordered_row);
      (lists_reordered_row, OpChange (lit "name") (lit "Launch"));
      (lists_reordered_row, OpReset);
      (lists_reordered_row, OpChange (lit "date") (lit "2025-01-01")) ] initial
    = true /\
  exists ev,
    event (run []
             [ (lists_reordered_row, OpMount);
               (lists_reordered_row, OpEdit reordered_row);
               (lists_reordered_row, OpChange (lit "name") (lit "Launch"));
               (lists_reordered_row, OpReset);
               (lists_reordered_row, OpChange (lit "date") (lit "2025-01-01")) ]
             initial) = draft_of ev.
Proof.
  split; [reflexivity|].
  apply (create_mode_draft_is_form_shaped []
           [ (lists_reordered_row, OpMount);
             (lists_reordered_row, OpEdit reordered_row);
             (lists_reordered_row, OpChange (lit "name") (lit "Launch"));
             (lists_reordered_row, OpReset);
             (lists_reordered_row, OpChange (lit "date") (lit "2025-01-01")) ]
           eq_refl eq_refl).
Defined.

(** A form-shaped draft that validates has five non-empty trimmed fields. *)
Lemma form_draft_passed_is_complete (st : state) (ev : Event) :
  event st = draft_of ev -> result (validateForm st) = true -> complete ev.
Proof.
  intros E V.
  pose proof (validateForm_passed_no_blank st V) as N; rewrite E in N.
  assert (K : forall k x, In k (keys (draft_of ev)) ->
                          get (draft_of ev) k = VStr x -> trim x <> []).
  { intros k x Hin Hx; specialize (N k Hin).
    rewrite Hx, blank_str in N; apply str_eqb_false_nil in N; exact N. }
  unfold complete; repeat split.
  - apply (K (lit "id")); [simpl; auto | reflexivity].
  - apply (K (lit "name")); [simpl; auto | reflexivity].
  - apply (K (lit "date")); [simpl; auto | reflexivity].
  - apply (K (lit "location")); [simpl; auto 6 | reflexivity].
  - apply (K (lit "organizer")); [simpl; auto 6 | reflexivity].
Qed.

(** X12.  Every body the component POSTs to /add, in any run from the first
    render that uses only what the render offers, is an Event of the form's
    shape whose five fields are all non-empty after trimming. *)
Theorem posted_event_is_complete
    (baseUrl : jsstring) (acts : list ((request -> response) * op))
    (api : request -> response) (r : request) :
  offered_run baseUrl (acts ++ [(api, OpAdd)]) initial = true ->
  In r (requests (program baseUrl api (run baseUrl acts initial) OpAdd)) ->
  method r = POST ->
  exists ev, body r = Some (VObj (draft_of ev)) /\ complete ev.
Proof.
  intros Hoff Hin Hm.
  destruct (offered_run_app baseUrl acts api OpAdd initial Hoff) as [Hrun Hadd].
  cbn [offered] in Hadd; apply negb_true_iff in Hadd.
  destruct (offered_run_invariant create_draft_in_form_order baseUrl
              (step_keeps_create_draft baseUrl) acts initial Hrun
              initial_create_draft Hadd) as [ev E].
  cbn [program] in Hin.
  destruct (result (validateForm (run baseUrl acts initial))) eqn:V.
  - rewrite (requests_passed_add baseUrl api _ V) in Hin.
    exists ev; split; [|apply (form_draft_passed_is_complete _ ev E V)].
    destruct Hin as [<-|Hin]; [rewrite E; reflexivity|].
    destruct (api _); [|contradiction].
    destruct Hin as [<-|[]]; discriminate Hm.
  - rewrite (proj1 (requests_failed_validation baseUrl api _ V)) in Hin.
    contradiction.
Qed.

Lemma posted_event_is_complete_witness :
  offered_run [] (typing_launch (fun _ => Resolved (VArr [])) ++
                  [(fun _ => Resolved (VArr []), OpAdd)]) initial = true /\
  exists ev,
    body (mkRequest POST (lit "/add") (Some (VObj (draft_of launch))))
      = Some (VObj (draft_of ev)) /\ complete ev.
Proof.
  split; [reflexivity|].
  apply (posted_event_is_complete [] (typing_launch (fun _ => Resolved (VArr [])))
           (fun _ => Resolved (VArr []))
           (mkRequest POST (lit "/add") (Some (VObj (draft_of launch))))
           eq_refl (or_introl eq_refl) eq_refl).
Defined.

(** ** The table *)

(** X13.  In every state reached from the first render by what the render
    offers, "No events found." is shown exactly when [events] is the empty
    array, and in create mode the table's column heads, [Object.keys(event)],
    are the five form fields in form order. *)
Theorem table_header_in_create_mode
    (baseUrl : jsstring) (acts : list ((request -> response) * op)) :
  offered_run baseUrl acts initial = true ->
  (table_header (run baseUrl acts initial) = None <->
   events (run baseUrl acts initial) = VArr []) /\
  (editMode (run baseUrl acts initial) = false ->
   forall h, table_header (run baseUrl acts initial) = Some h -> h = input_names).
Proof.
  intros H.
  pose proof (run_invariant (fun st => isArray (events st) = true) baseUrl
                (fun api o st => step_keeps_array baseUrl api o st)
                acts initial eq_refl) as A.
  pose proof (offered_run_invariant create_draft_in_form_order baseUrl
                (step_keeps_create_draft baseUrl) acts initial H
                initial_create_draft) as J.
  unfold table_header; cbv beta in A.
  destruct (events (run baseUrl acts initial)) as [| | | | |xs|]; try discriminate A.
  cbn [isArray negb orb array_length].
  split.
  - destruct xs; cbn; split; congruence.
  - intros Hc h; destruct (J Hc) as [ev E]; rewrite E.
    destruct xs; cbn; [discriminate|].
    intros [= <-]; reflexivity.
Qed.

Lemma table_header_in_create_mode_witness :
  offered_run [] (typing_launch lists_reordered_row) initial = true /\
  editMode (run [] (typing_launch lists_reordered_row) initial) = false /\
  table_header (run [] (typing_launch lists_reordered_row) initial)
    = Some (keys (draft_of launch)) /\
  keys (draft_of launch) = input_names.
Proof.
  split; [reflexivity|]. split; [reflexivity|]. split; [reflexivity|].
  exact (proj2 (table_header_in_create_mode []
                  (typing_launch lists_reordered_row) eq_refl)
           eq_refl (keys (draft_of launch)) eq_refl).
Defined.

(** ** Retrying and cancelling *)

Lemma validateForm_reads_draft_only (s1 s2 : state) :
  event s1 = event s2 -> validateForm s1 = validateForm s2.
Proof.
  intros E; unfold validateForm; rewrite !validate_loop_find, E; reflexivity.
Qed.

(** X14.  After a rejected create or update the same button sends the same
    request again: the draft still validates, and the first request of the
    retry is the POST or PUT with the same body, whatever the backend
    answers this time. *)
Theorem rejected_submit_can_be_retried
    (baseUrl : jsstring) (api api' : request -> response) (st : state) :
  result (validateForm st) = true ->
  (api (mkRequest POST (baseUrl ++ lit "/add") (Some (VObj (event st)))) = Rejected ->
   result (validateForm (step baseUrl api OpAdd st)) = true /\
   exists rest,
     requests (handleAddEvent baseUrl api' (step baseUrl api OpAdd st)) =
     mkRequest POST (baseUrl ++ lit "/add") (Some (VObj (event st))) :: rest) /\
  (api (mkRequest PUT (baseUrl ++ lit "/update") (Some (VObj (event st)))) = Rejected ->
   result (validateForm (step baseUrl api OpUpdate st)) = true /\
   exists rest,
     requests (handleUpdateEvent baseUrl api' (step baseUrl api OpUpdate st)) =
     mkRequest PUT (baseUrl ++ lit "/update") (Some (VObj (event st))) :: rest).
Proof.
  intros V; split; intros R.
  - assert (E : event (step baseUrl api OpAdd st) = event st).
    { pose proof (validateForm_passed st V) as V'.
      unfold step, program, handleAddEvent, addEventApi, exec, effects, bind, await.
      rewrite V'; cbn [result now later ret negb]; rewrite R; reflexivity. }
    assert (V2 : result (validateForm (step baseUrl api OpAdd st)) = true)
      by (rewrite (validateForm_reads_draft_only _ st E); exact V).
    split; [exact V2|].
    rewrite (requests_passed_add baseUrl api' _ V2), E; eauto.
  - assert (E : event (step baseUrl api OpUpdate st) = event st).
    { pose proof (validateForm_passed st V) as V'.
      unfold step, program, handleUpdateEvent, updateEventApi, exec, effects,
        bind, await.
      rewrite V'; cbn [result now later ret negb]; rewrite R; reflexivity. }
    assert (V2 : result (validateForm (step baseUrl api OpUpdate st)) = true)
      by (rewrite (validateForm_reads_draft_only _ st E); exact V).
    split; [exact V2|].
    rewrite (requests_passed_update baseUrl api' _ V2), E; eauto.
Qed.

Lemma rejected_submit_can_be_retried_witness :
  result (validateForm editing_launch) = true /\
  exists rest,
    requests (handleUpdateEvent [] (fun _ => Resolved VNull)
                (step [] (fun _ => Rejected) OpUpdate editing_launch)) =
    mkRequest PUT (lit "/update") (Some (VObj (event editing_launch))) :: rest.
Proof.
  split; [reflexivity|].
  apply (proj2 (rejected_submit_can_be_retried [] (fun _ => Rejected)
                  (fun _ => Resolved VNull) editing_launch eq_refl) eq_refl).
Defined.




(** ** The lookup box *)


(** ** The list is a snapshot *)

Lemma quiet_op_preserves_events
    (baseUrl : jsstring) (api : request -> response) (s : state) (o : op) :
  match o with
  | OpMount | OpAdd | OpUpdate | OpDelete _ => True
  | _ => preserves events (program baseUrl api s o)
  end.
Proof.
  destruct o; try exact I; cbn [program];
    unfold handleChange, setIdToFetch, validateForm, handleFetchById, handleEdit,
      resetForm, fetchEventByIdApi, setEvent, setEditMode, setMessage,
      setFetchedEvent;
    frame.
Qed.

Lemma fetched_list_ignores_state
    (baseUrl : jsstring) (api : request -> response) (st1 st2 : state) :
  events (exec (fetchAllEvents baseUrl api) st1)
  = events (exec (fetchAllEvents baseUrl api) st2).
Proof.
  rewrite !exec_fetchAllEvents.
  destruct (api _) as [data|]; [|reflexivity].
  destruct (isArray data); [reflexivity|].
  destruct (truthy data && isArray (prop data (lit "data"))); reflexivity.
Qed.

(** X18.  No operation patches the list locally: after any operation
    [events] is either what it was or what the list fetch makes of the
    backend's answer to GET /all, and that does not depend on the state the
    fetch started from.  An accepted create, update or delete never adds,
    changes or removes a row itself. *)
Theorem list_is_only_replaced_by_fetch
    (baseUrl : jsstring) (api : request -> response) (o : op) (st st0 : state) :
  events (step baseUrl api o st) = events st \/
  events (step baseUrl api o st) = events (exec (fetchAllEvents baseUrl api) st0).
Proof.
  pose proof (quiet_op_preserves_events baseUrl api st o) as Q.
  destruct o;
    try (left; unfold step; apply (preserves_exec events _ _ Q)).
  - (* mount *)
    right; unfold step, program, mount, exec; rewrite effects_detach.
    apply (fetched_list_ignores_state baseUrl api st st0).
  - (* Add *)
    unfold step; cbn [program].
    destruct (result (validateForm st)) eqn:V.
    + destruct (api (mkRequest POST (baseUrl ++ lit "/add") (Some (VObj (event st)))))
        as [d|] eqn:R.
      * right; rewrite (exec_handleAddEvent_resolved baseUrl api st d V R).
        apply fetched_list_ignores_state.
      * left; apply validateForm_passed in V.
        unfold handleAddEvent, addEventApi, exec, effects, bind, await.
        rewrite V; cbn [result now later ret negb]; rewrite R; reflexivity.
    + left.
      destruct (validateForm_shape st) as [E | (key & _ & _ & E)];
        [rewrite E in V; discriminate|].
      unfold handleAddEvent, exec, effects; rewrite E; reflexivity.
  - (* Update *)
    unfold step; cbn [program].
    destruct (result (validateForm st)) eqn:V.
    + destruct (api (mkRequest PUT (baseUrl ++ lit "/update") (Some (VObj (event st)))))
        as [d|] eqn:R.
      * right; rewrite (exec_handleUpdateEvent_resolved baseUrl api st d V R).
        apply fetched_list_ignores_state.
      * left; apply validateForm_passed in V.
        unfold handleUpdateEvent, updateEventApi, exec, effects, bind, await.
        rewrite V; cbn [result now later ret negb]; rewrite R; reflexivity.
    + left.
      destruct (validateForm_shape st) as [E | (key & _ & _ & E)];
        [rewrite E in V; discriminate|].
      unfold handleUpdateEvent, exec, effects; rewrite E; reflexivity.
  - (* Delete *)
    unfold step; cbn [program].
    unfold handleDeleteEvent, deleteEventApi, bind, await; cbn [result now later].
    destruct (api (mkRequest DELETE _ _)) as [d|]; [right | left; reflexivity].
    transitivity (events (exec (fetchAllEvents baseUrl api)
                            (with_message st msg_deleted)));
      [|apply fetched_list_ignores_state].
    unfold fetchAllEvents, detach, exec, effects, bind, await.
    cbn [result now later app upto_request is_request emit setMessage fold_left
           apply].
    rewrite ?app_nil_r; reflexivity.
Qed.
